(** * provider-dns-v2: credential mapping, include lists and controller setup

    A shallow embedding of the Go code of [internal/clients/dns-v2.go]
    (and of its second copy, [src/unnamed/part_001]), of the provider
    configuration of package [config] ([src/unnamed/part_000]) and of
    [internal/controller/cluster/zz_setup.go].

    Go maps are reference objects: the embedding keeps them in a store and
    the functions that build configuration maps are computations over that
    store.  The order in which [range] visits the entries of a map is chosen
    by the Go runtime; it is a parameter of the model. *)

From stdpp Require Import gmap strings list fin_maps.

Open Scope string_scope.
Open Scope list_scope.

(** ** Go values and the store *)

Abbreviation loc := nat.

(** A value of a Go map type: [nil] or a reference to a map object. *)
Inductive mapref := Nil | Ref (l : loc).

(** The dynamic values stored under [any] by this package: strings and
    slices of maps ([[]map[string]any{...}]). *)
Inductive any :=
  | VStr (s : string)
  | VMaps (ms : list mapref).

Inductive obj :=
  | OStrMap (m : gmap string string)   (* map[string]string *)
  | OAnyMap (m : gmap string any).     (* map[string]any *)

Abbreviation heap := (list obj).

(** The machine state: the store and the number of [range] loops over maps
    started so far (the index handed to the runtime's choice of order). *)
Record state := State { hp : heap; ranges : nat }.

Inductive result (A : Type) :=
  | Ok (a : A)
  | Panic (msg : string).
Arguments Ok {A} a.
Arguments Panic {A} msg.

Definition M (A : Type) : Type := state -> result (A * state).

Definition run {A} (m : M A) (s : state) : result (A * state) := m s.

Definition ret {A} (a : A) : M A := fun s => Ok (a, s).

Definition bind {A B} (m : M A) (f : A -> M B) : M B :=
  fun s => match m s with
           | Ok (a, s') => f a s'
           | Panic e => Panic e
           end.

Definition panic {A} (msg : string) : M A := fun _ => Panic msg.

Declare Scope go_scope.
Delimit Scope go_scope with go.
Notation "x <- c1 ;; c2" := (bind c1 (fun x => c2))
  (at level 100, c1 at next level, right associativity) : go_scope.
Notation "c1 ;;; c2" := (bind c1 (fun _ => c2))
  (at level 100, right associativity) : go_scope.
Open Scope go_scope.

(** [make(map[string]any)] and [map[string]any{}] *)
Definition new_map : M mapref :=
  fun s => Ok (Ref (length (hp s)),
               State (hp s ++ [OAnyMap ∅]) (ranges s)).

(** [map[string]string{}] *)
Definition new_strmap : M mapref :=
  fun s => Ok (Ref (length (hp s)),
               State (hp s ++ [OStrMap ∅]) (ranges s)).

(** [v, ok := m[k]] on a [map[string]string]; reading a nil map finds
    nothing. *)
Definition smap_get (m : mapref) (k : string) : M (option string) :=
  fun s => match m with
           | Nil => Ok (None, s)
           | Ref l => match hp s !! l with
                      | Some (OStrMap c) => Ok (c !! k, s)
                      | _ => Panic "invalid map[string]string reference"
                      end
           end.

(** [m[k] = v] on a [map[string]any]; writing to a nil map panics. *)
Definition amap_set (m : mapref) (k : string) (v : any) : M unit :=
  fun s => match m with
           | Nil => Panic "assignment to entry in nil map"
           | Ref l => match hp s !! l with
                      | Some (OAnyMap c) =>
                          Ok (tt, State (<[l := OAnyMap (<[k := v]> c)]> (hp s)) (ranges s))
                      | _ => Panic "invalid map[string]any reference"
                      end
           end.

(** ** internal/clients/dns-v2.go *)

Definition keyRFC := "rfc".
Definition keyServer := "server".
Definition update := "update".
Definition keyPort := "port".
Definition keyRetries := "retries".
Definition keyTimeout := "timeout".
Definition keyTransport := "transport".

Definition gsstsigRFC := "3645".
Definition gssapi := "gssapi".
Definition keyTab := "keytab".
Definition keyPassword := "password".
Definition keyRealm := "realm".
Definition keyUsername := "username".

Definition keyBasedTransactionRFC := "2845".
Definition transactionKeyAlgorithm := "key_algorithm".
Definition transcationKeyName := "key_name".
Definition transactionKeySecret := "key_secret".

Section Range.

(** The runtime's choice of iteration order: the [n]-th [range] loop over
    a map with entries [l] visits them in the order [range_order n l]. *)
Variable range_order : nat -> list (string * any) -> list (string * any).

(** [for k, v := range m] on a [map[string]any]: the entries to visit, in
    the order chosen by the runtime.  Ranging over a nil map visits
    nothing. *)
Definition amap_range (m : mapref) : M (list (string * any)) :=
  fun s => match m with
           | Nil => Ok ([], State (hp s) (S (ranges s)))
           | Ref l => match hp s !! l with
                      | Some (OAnyMap c) =>
                          Ok (range_order (ranges s) (map_to_list c),
                              State (hp s) (S (ranges s)))
                      | _ => Panic "invalid map[string]any reference"
                      end
           end.

Fixpoint for_each {A} (l : list A) (body : A -> M unit) : M unit :=
  match l with
  | [] => ret tt
  | x :: l' => body x ;;; for_each l' body
  end.

(** mergeMaps takes all the keys in B and inserts them into A. *)
Definition mergeMaps (a b : mapref) : M unit :=
  kvs <- amap_range b ;;
  for_each kvs (fun kv => amap_set a kv.1 kv.2).

Definition buildGSSTSIGAuthConfig (creds : mapref) : M mapref :=
  config <- new_map ;;
  realm <- smap_get creds keyRealm ;;
  match realm with
  | Some realm => amap_set config keyRealm (VStr realm)
  | None => ret tt
  end ;;;
  username <- smap_get creds keyUsername ;;
  match username with
  | Some username => amap_set config keyUsername (VStr username)
  | None => ret tt
  end ;;;
  password <- smap_get creds keyPassword ;;
  match password with
  | Some password => amap_set config keyPassword (VStr password)
  | None => ret tt
  end ;;;
  keytab <- smap_get creds keyTab ;;
  match keytab with
  | Some keytab => amap_set config keyTab (VStr keytab)
  | None => ret tt
  end ;;;
  ret config.

Definition buildSecretBasedTransactionAuthConfig (creds : mapref) : M mapref :=
  config <- new_map ;;
  keyName <- smap_get creds transcationKeyName ;;
  match keyName with
  | Some keyName => amap_set config transcationKeyName (VStr keyName)
  | None => ret tt
  end ;;;
  keyAlgorithm <- smap_get creds transactionKeyAlgorithm ;;
  match keyAlgorithm with
  | Some keyAlgorithm => amap_set config transactionKeyAlgorithm (VStr keyAlgorithm)
  | None => ret tt
  end ;;;
  keySecret <- smap_get creds transactionKeySecret ;;
  match keySecret with
  | Some keySecret => amap_set config transactionKeySecret (VStr keySecret)
  | None => ret tt
  end ;;;
  ret config.

Definition buildOptionalConfig (creds : mapref) : M mapref :=
  config <- new_map ;;
  port <- smap_get creds keyPort ;;
  match port with
  | Some port => amap_set config keyPort (VStr port)
  | None => ret tt
  end ;;;
  retries <- smap_get creds keyRetries ;;
  match retries with
  | Some retries => amap_set config keyRetries (VStr retries)
  | None => ret tt
  end ;;;
  timeout <- smap_get creds keyTimeout ;;
  match timeout with
  | Some timeout => amap_set config keyTimeout (VStr timeout)
  | None => ret tt
  end ;;;
  transport <- smap_get creds keyTransport ;;
  match transport with
  | Some transport => amap_set config keyTransport (VStr transport)
  | None => ret tt
  end ;;;
  ret config.

(** buildAuthConfig builds the auth configuration for the provider. *)
Definition buildAuthConfig (creds : mapref) : M mapref :=
  config <- new_map ;;
  server <- smap_get creds keyServer ;;
  match server with
  | Some server => amap_set config keyServer (VStr server)
  | None => ret tt
  end ;;;
  rfc <- smap_get creds keyRFC ;;
  match rfc with
  | Some rfc =>
      if String.eqb rfc gsstsigRFC then
        authConfig <- buildGSSTSIGAuthConfig creds ;;
        amap_set config gssapi (VMaps [authConfig])
      else if String.eqb rfc keyBasedTransactionRFC then
        secretBasedTransactionAuthConfig <- buildSecretBasedTransactionAuthConfig creds ;;
        mergeMaps config secretBasedTransactionAuthConfig
      else ret tt
  | None => ret tt
  end ;;;
  optionalConfig <- buildOptionalConfig creds ;;
  mergeMaps config optionalConfig ;;;
  ret config.

End Range.


(** ** internal/clients/dns-v2.go: the setup function *)

(** Go errors, as built by [errors.New] and [errors.Wrap]. *)
Inductive error :=
  | ErrNew (msg : string)
  | ErrWrap (cause : error) (msg : string).

(** [errors.Wrap] returns nil when the error it is given is nil. *)
Definition Wrap (err : option error) (msg : string) : option error :=
  match err with
  | None => None
  | Some e => Some (ErrWrap e msg)
  end.

Definition errNoProviderConfig := "no providerConfigRef provided".
Definition errGetProviderConfig := "cannot get referenced ProviderConfig".
Definition errTrackUsage := "cannot track ProviderConfig usage".
Definition errExtractCredentials := "cannot extract credentials".
Definition errUnmarshalCredentials := "cannot unmarshal dns-v2 credentials as JSON".

(** The fields of the API types (apis/cluster/v1beta1, apis/namespaced/v1beta1
    and crossplane-runtime) that this file reads or writes. *)
Record SecretKeySelector := {
  sks_Name : string;
  sks_Namespace : string;
  sks_Key : string
}.

Record CommonCredentialSelectors := {
  Fs : option string;
  Env : option string;
  SecretRef : option SecretKeySelector
}.

Record ProviderCredentials := {
  Source : string;
  Selectors : CommonCredentialSelectors
}.

Record ProviderConfigSpec := { Credentials : ProviderCredentials }.

(** The managed resource, by the case of the type switch that it takes:
    [resource.LegacyManaged] is tried first, then [resource.ModernManaged];
    each carries what the accessors [GetProviderConfigReference] and
    [GetNamespace] return. *)
Inductive Managed :=
  | LegacyManaged (configRef : option string)
  | ModernManaged (configRef : option (string * string)) (namespace : string)
  | NotManaged.

(** The object that [Scheme().New] builds for a kind and that [Get] fills,
    by the case of the type switch in resolveModern. *)
Inductive pcObject :=
  | NamespacedProviderConfig (spec : ProviderConfigSpec)
  | ClusterProviderConfig (spec : ProviderConfigSpec)
  | OtherObject.

(** [terraform.ProviderRequirement] *)
Record ProviderRequirement := {
  req_Source : string;
  req_Version : string
}.

(** The frameworks this file calls into (controller-runtime,
    crossplane-runtime, encoding/json, the Terraform plugin SDK and the DNS
    provider): their types and, for each call, what the Go call returns.  An
    error is [Some _], no error is [None]. *)
Class Frameworks := {
  Ctx : Type;
  Client : Type;
  ClusterSpec : Type;
  Provider : Type;
  Diagnostics : Type;
  MetaT : Type;
  FwProvider : Type;
  (** [client.Get] of a cluster-scoped ProviderConfig by name: the spec of
      the object read, and the error. *)
  client_Get_cluster : Ctx -> Client -> string -> ClusterSpec * option error;
  (** [Track] of the usage trackers. *)
  tracker_Track : Ctx -> Client -> Managed -> option error;
  (** [json.Marshal(pc.Spec)] *)
  json_Marshal_spec : ClusterSpec -> list Byte.byte * option error;
  (** [json.Unmarshal(data, &mSpec)] into a zero ProviderConfigSpec: the
      value left in [mSpec], and the error. *)
  json_Unmarshal_spec : list Byte.byte -> ProviderConfigSpec * option error;
  (** [crClient.Scheme().New(gvk)] for a kind: whether an object was built
      and is a [client.Object], and the error. *)
  scheme_New : Client -> string -> option bool * option error;
  (** [crClient.Get] of the object of a kind by name and namespace: the
      object as filled, and the error. *)
  client_Get : Ctx -> Client -> string -> string -> string -> pcObject * option error;
  (** [resource.CommonCredentialExtractor] *)
  CommonCredentialExtractor :
    Ctx -> string -> Client -> CommonCredentialSelectors ->
    list Byte.byte * option error;
  (** [json.Unmarshal(data, &creds)] into a [map[string]string] that holds
      the given entries: the map left in [creds] ([None] when it was set to
      nil) and the error. *)
  json_Unmarshal_creds :
    list Byte.byte -> gmap string string ->
    option (gmap string string) * option error;
  (** [p.Configure] on a copy of the provider, given the configuration as it
      stands in the store: the provider as configured and the diagnostics
      ([None] for nil).  The provider reads the configuration and leaves the
      store as it is. *)
  Provider_Configure :
    Ctx -> Provider -> heap -> mapref -> Provider * option Diagnostics;
  HasError : Diagnostics -> bool;
  (** The text that [%v] prints for diagnostics. *)
  show_Diagnostics : Diagnostics -> string;
  Provider_Meta : Provider -> option MetaT;
  (** The first component of [xpprovider.GetProvider(ctx)]. *)
  xpprovider_GetProvider : Ctx -> option FwProvider
}.

Section SetupFn.

Context `{Frameworks}.

(** The runtime's choice of iteration order for [range] over a map. *)
Variable range_order : nat -> list (string * any) -> list (string * any).

(** The fields of [terraform.Setup] that the setup function assigns. *)
Record Setup := {
  Version : string;
  Requirement : ProviderRequirement;
  Configuration : mapref;
  Meta : option MetaT;
  FrameworkProvider : option FwProvider
}.

(** [terraform.Setup{}] *)
Definition zero_Setup : Setup :=
  {| Version := "";
     Requirement := {| req_Source := ""; req_Version := "" |};
     Configuration := Nil;
     Meta := None;
     FrameworkProvider := None |}.

Definition toSharedPCSpec (pc : option ClusterSpec)
  : option ProviderConfigSpec * option error :=
  match pc with
  | None => (None, None)
  | Some spec =>
      let '(data, err) := json_Marshal_spec spec in
      match err with
      | Some e => (None, Some e)
      | None =>
          let '(mSpec, err) := json_Unmarshal_spec data in
          (Some mSpec, err)
      end
  end.

Definition resolveLegacy (ctx : Ctx) (client : Client) (mg : Managed)
    (configRef : option string)
  : option ProviderConfigSpec * option error :=
  match configRef with
  | None => (None, Some (ErrNew errNoProviderConfig))
  | Some name =>
      let '(pc, err) := client_Get_cluster ctx client name in
      match err with
      | Some e => (None, Wrap (Some e) errGetProviderConfig)
      | None =>
          match tracker_Track ctx client mg with
          | Some e => (None, Wrap (Some e) errTrackUsage)
          | None => toSharedPCSpec (Some pc)
          end
      end
  end.

Definition resolveModern (ctx : Ctx) (crClient : Client) (mg : Managed)
    (configRef : option (string * string)) (namespace : string)
  : option ProviderConfigSpec * option error :=
  match configRef with
  | None => (None, Some (ErrNew errNoProviderConfig))
  | Some (name, kind) =>
      let '(pcRuntimeObj, err) := scheme_New crClient kind in
      match err with
      | Some e => (None, Wrap (Some e) "unknown GVK for ProviderConfig")
      | None =>
          match pcRuntimeObj with
          | Some true =>
              let '(pcObj, err) := client_Get ctx crClient kind name namespace in
              match err with
              | Some e => (None, Wrap (Some e) errGetProviderConfig)
              | None =>
                  match pcObj with
                  | NamespacedProviderConfig spec =>
                      let pcSpec :=
                        match SecretRef (Selectors (Credentials spec)) with
                        | Some ref =>
                            {| Credentials :=
                                {| Source := Source (Credentials spec);
                                   Selectors :=
                                     {| Fs := Fs (Selectors (Credentials spec));
                                        Env := Env (Selectors (Credentials spec));
                                        SecretRef :=
                                          Some {| sks_Name := sks_Name ref;
                                                  sks_Namespace := namespace;
                                                  sks_Key := sks_Key ref |} |} |} |}
                        | None => spec
                        end in
                      match tracker_Track ctx crClient mg with
                      | Some e => (None, Wrap (Some e) errTrackUsage)
                      | None => (Some pcSpec, None)
                      end
                  | ClusterProviderConfig spec =>
                      match tracker_Track ctx crClient mg with
                      | Some e => (None, Wrap (Some e) errTrackUsage)
                      | None => (Some spec, None)
                      end
                  | OtherObject =>
                      (None, Some (ErrNew "unknown provider config type"))
                  end
              end
          | _ => (None, Some (ErrNew " is not an Object"))
          end
      end
  end.

Definition resolveProviderConfig (ctx : Ctx) (crClient : Client) (mg : Managed)
  : option ProviderConfigSpec * option error :=
  match mg with
  | LegacyManaged configRef => resolveLegacy ctx crClient mg configRef
  | ModernManaged configRef namespace =>
      resolveModern ctx crClient mg configRef namespace
  | NotManaged => (None, Some (ErrNew "resource is not a managed resource"))
  end.

(** [json.Unmarshal(data, &creds)] on the variable [creds]: the new value
    of the variable, and the error; the map object is updated in place. *)
Definition unmarshal_creds (data : list Byte.byte) (creds : mapref)
  : M (mapref * option error) :=
  fun s =>
    match creds with
    | Nil => Panic "json: Unmarshal(nil)"
    | Ref l =>
        match hp s !! l with
        | Some (OStrMap c) =>
            let '(c', err) := json_Unmarshal_creds data c in
            match c' with
            | Some c' =>
                Ok ((Ref l, err), State (<[l := OStrMap c']> (hp s)) (ranges s))
            | None => Ok ((Nil, err), s)
            end
        | _ => Panic "invalid map[string]string reference"
        end
    end.

(** configureNoForkDNSClient populates the supplied *terraform.Setup with
    Terraform Plugin SDK style DNS client (Meta) and Terraform Plugin
    Framework style FrameworkProvider *)
Definition configureNoForkDNSClient (ctx : Ctx) (ps : Setup) (p : Provider)
  : M (Setup * option error) :=
  fun s =>
    let '(p, diag) := Provider_Configure ctx p (hp s) (Configuration ps) in
    match diag with
    | Some d =>
        if HasError d then
          Ok ((ps, Some (ErrNew (String.append "failed to configure the provider: "
                                   (show_Diagnostics d)))), s)
        else
          Ok (({| Version := Version ps;
                  Requirement := Requirement ps;
                  Configuration := Configuration ps;
                  Meta := Provider_Meta p;
                  FrameworkProvider := xpprovider_GetProvider ctx |}, None), s)
    | None =>
        Ok (({| Version := Version ps;
                Requirement := Requirement ps;
                Configuration := Configuration ps;
                Meta := Provider_Meta p;
                FrameworkProvider := xpprovider_GetProvider ctx |}, None), s)
    end.

(** TerraformSetupBuilder builds Terraform a terraform.SetupFn function which
    returns Terraform provider setup configuration

    The last statement is [return ps, errors.Wrap(configureNoForkDNSClient(ctx,
    &ps, *tfProvider), ...)]: the call writes Meta and FrameworkProvider
    through [&ps], and the setup returned is [ps] as the call left it (the
    compiler evaluates the call before it copies [ps]).  The call does not
    touch Version, Requirement or Configuration. *)
Definition TerraformSetupBuilder (version providerSource providerVersion : string)
    (tfProvider : option Provider)
    (ctx : Ctx) (client : Client) (mg : Managed) : M (Setup * option error) :=
  let ps := {| Version := version;
               Requirement := {| req_Source := providerSource;
                                 req_Version := providerVersion |};
               Configuration := Nil;
               Meta := None;
               FrameworkProvider := None |} in
  let '(pcSpec, err) := resolveProviderConfig ctx client mg in
  match err with
  | Some e => ret (zero_Setup, Wrap (Some e) "cannot resolve provider config")
  | None =>
      match pcSpec with
      | None => panic "invalid memory address or nil pointer dereference"
      | Some pcSpec =>
          let '(data, err) :=
            CommonCredentialExtractor ctx (Source (Credentials pcSpec)) client
              (Selectors (Credentials pcSpec)) in
          match err with
          | Some e => ret (ps, Wrap (Some e) errExtractCredentials)
          | None =>
              creds <- new_strmap ;;
              r <- unmarshal_creds data creds ;;
              let '(creds, err) := r in
              match err with
              | Some e => ret (ps, Wrap (Some e) errUnmarshalCredentials)
              | None =>
                  configuration <- new_map ;;
                  let ps := {| Version := Version ps;
                               Requirement := Requirement ps;
                               Configuration := configuration;
                               Meta := Meta ps;
                               FrameworkProvider := FrameworkProvider ps |} in
                  authConfig <- buildAuthConfig range_order creds ;;
                  amap_set (Configuration ps) update (VMaps [authConfig]) ;;;
                  match tfProvider with
                  | None => panic "invalid memory address or nil pointer dereference"
                  | Some p =>
                      r <- configureNoForkDNSClient ctx ps p ;;
                      let '(ps, err) := r in
                      ret (ps, Wrap err "failed to configure the Terraform DNS provider meta")
                  end
              end
          end
      end
  end.

(** The second copy of the file (part_001).  Its toSharedPCSpec,
    resolveLegacy, buildAuthConfig and the functions under it are those
    above, up to comments and the type of the one-element slices ([[]any]
    there, [[]map[string]any] here).  Its resolveModern reports an object
    that is no [client.Object] with a text of its own, and its setup function
    takes no provider and sets the framework provider itself. *)
Definition resolveModern_part_001 (ctx : Ctx) (crClient : Client) (mg : Managed)
    (configRef : option (string * string)) (namespace : string)
  : option ProviderConfigSpec * option error :=
  match configRef with
  | None => (None, Some (ErrNew errNoProviderConfig))
  | Some (name, kind) =>
      let '(pcRuntimeObj, err) := scheme_New crClient kind in
      match err with
      | Some e => (None, Wrap (Some e) "unknown GVK for ProviderConfig")
      | None =>
          match pcRuntimeObj with
          | Some true =>
              let '(pcObj, err) := client_Get ctx crClient kind name namespace in
              match err with
              | Some e => (None, Wrap (Some e) errGetProviderConfig)
              | None =>
                  match pcObj with
                  | NamespacedProviderConfig spec =>
                      let pcSpec :=
                        match SecretRef (Selectors (Credentials spec)) with
                        | Some ref =>
                            {| Credentials :=
                                {| Source := Source (Credentials spec);
                                   Selectors :=
                                     {| Fs := Fs (Selectors (Credentials spec));
                                        Env := Env (Selectors (Credentials spec));
                                        SecretRef :=
                                          Some {| sks_Name := sks_Name ref;
                                                  sks_Namespace := namespace;
                                                  sks_Key := sks_Key ref |} |} |} |}
                        | None => spec
                        end in
                      match tracker_Track ctx crClient mg with
                      | Some e => (None, Wrap (Some e) errTrackUsage)
                      | None => (Some pcSpec, None)
                      end
                  | ClusterProviderConfig spec =>
                      match tracker_Track ctx crClient mg with
                      | Some e => (None, Wrap (Some e) errTrackUsage)
                      | None => (Some spec, None)
                      end
                  | OtherObject =>
                      (None, Some (ErrNew "unknown provider config type"))
                  end
              end
          | _ => (None, Some (ErrNew "ProviderConfig is not a client.Object"))
          end
      end
  end.

Definition resolveProviderConfig_part_001 (ctx : Ctx) (crClient : Client) (mg : Managed)
  : option ProviderConfigSpec * option error :=
  match mg with
  | LegacyManaged configRef => resolveLegacy ctx crClient mg configRef
  | ModernManaged configRef namespace =>
      resolveModern_part_001 ctx crClient mg configRef namespace
  | NotManaged => (None, Some (ErrNew "resource is not a managed resource"))
  end.

(** TerraformSetupBuilder of part_001 *)
Definition TerraformSetupBuilder_part_001
    (version providerSource providerVersion : string)
    (ctx : Ctx) (client : Client) (mg : Managed) : M (Setup * option error) :=
  let ps := {| Version := version;
               Requirement := {| req_Source := providerSource;
                                 req_Version := providerVersion |};
               Configuration := Nil;
               Meta := None;
               FrameworkProvider := None |} in
  let '(pcSpec, err) := resolveProviderConfig_part_001 ctx client mg in
  match err with
  | Some e => ret (zero_Setup, Wrap (Some e) "cannot resolve provider config")
  | None =>
      match pcSpec with
      | None => panic "invalid memory address or nil pointer dereference"
      | Some pcSpec =>
          let '(data, err) :=
            CommonCredentialExtractor ctx (Source (Credentials pcSpec)) client
              (Selectors (Credentials pcSpec)) in
          match err with
          | Some e => ret (ps, Wrap (Some e) errExtractCredentials)
          | None =>
              creds <- new_strmap ;;
              r <- unmarshal_creds data creds ;;
              let '(creds, err) := r in
              match err with
              | Some e => ret (ps, Wrap (Some e) errUnmarshalCredentials)
              | None =>
                  configuration <- new_map ;;
                  let ps := {| Version := Version ps;
                               Requirement := Requirement ps;
                               Configuration := configuration;
                               Meta := Meta ps;
                               FrameworkProvider := FrameworkProvider ps |} in
                  authConfig <- buildAuthConfig range_order creds ;;
                  amap_set (Configuration ps) update (VMaps [authConfig]) ;;;
                  match xpprovider_GetProvider ctx with
                  | None => ret (ps, Some (ErrNew "framework provider is nil"))
                  | Some fwProvider =>
                      ret ({| Version := Version ps;
                              Requirement := Requirement ps;
                              Configuration := Configuration ps;
                              Meta := Meta ps;
                              FrameworkProvider := Some fwProvider |}, None)
                  end
              end
          end
      end
  end.

End SetupFn.

(** ** internal/controller/cluster/zz_setup.go *)

Module controller.

(** The generated controller packages that zz_setup.go imports. *)
Inductive Package :=
  | providerconfig
  | cnamerecord
  | ptrrecord
  | aaaarecordset
  | arecordset
  | mxrecordset
  | nsrecordset
  | srvrecordset
  | txtrecordset.

Section Setup.

(** [ctrl.Manager] and [controller.Options] *)
Variables Manager Options : Type.

(** [pkg.Setup] and [pkg.SetupGated] of a generated package: the manager
    after the call, and the error. *)
Variable pkg_Setup : Package -> Manager -> Options -> Manager * option error.
Variable pkg_SetupGated : Package -> Manager -> Options -> Manager * option error.

(** [for _, setup := range setups { if err := setup(mgr, o); err != nil
    { return err } }; return nil] *)
Fixpoint for_setups (setups : list (Manager -> Options -> Manager * option error))
    (mgr : Manager) (o : Options) : Manager * option error :=
  match setups with
  | [] => (mgr, None)
  | setup :: rest =>
      let '(mgr, err) := setup mgr o in
      match err with
      | Some e => (mgr, Some e)
      | None => for_setups rest mgr o
      end
  end.

(** Setup creates all controllers with the supplied logger and adds them to
    the supplied manager. *)
Definition Setup (mgr : Manager) (o : Options) : Manager * option error :=
  for_setups [pkg_Setup providerconfig;
              pkg_Setup cnamerecord;
              pkg_Setup ptrrecord;
              pkg_Setup aaaarecordset;
              pkg_Setup arecordset;
              pkg_Setup mxrecordset;
              pkg_Setup nsrecordset;
              pkg_Setup srvrecordset;
              pkg_Setup txtrecordset] mgr o.

(** SetupGated creates all controllers with the supplied logger and adds
    them to the supplied manager gated. *)
Definition SetupGated (mgr : Manager) (o : Options) : Manager * option error :=
  for_setups [pkg_SetupGated providerconfig;
              pkg_SetupGated cnamerecord;
              pkg_SetupGated ptrrecord;
              pkg_SetupGated aaaarecordset;
              pkg_SetupGated arecordset;
              pkg_SetupGated mxrecordset;
              pkg_SetupGated nsrecordset;
              pkg_SetupGated srvrecordset;
              pkg_SetupGated txtrecordset] mgr o.

End Setup.

End controller.

(** ** Package config: the provider configuration (part_000) *)

(** [l[i] = x] on a slice; an index out of range panics. *)
Definition slice_set (l : list string) (i : nat) (x : string)
  : result (list string) :=
  if decide (i < length l) then Ok (<[i := x]> l)
  else Panic "index out of range".

Section ResourceList.

(** [ujconfig.ExternalName], a type of the upjet framework. *)
Variable ExternalName : Type.

(** The order in which the runtime visits the entries of the table. *)
Variable table_order :
  list (string * ExternalName) -> list (string * ExternalName).

(** One iteration of the loop body: [l[i] = n + "$"; i++]. *)
Definition resourceList_step (st : result (list string * nat))
    (entry : string * ExternalName) : result (list string * nat) :=
  match st with
  | Ok (l, i) =>
      match slice_set l i (String.append entry.1 "$") with
      | Ok l' => Ok (l', S i)
      | Panic e => Panic e
      end
  | Panic e => Panic e
  end.

(** resourceList returns the list of resources that have external
    name configured in the specified table. *)
Definition resourceList (t : gmap string ExternalName) : result (list string) :=
  let l := replicate (size t) "" in
  let i := 0 in
  match foldl resourceList_step (Ok (l, i)) (table_order (map_to_list t)) with
  | Ok (l, _) => Ok l
  | Panic e => Panic e
  end.

End ResourceList.

(** * The vocabulary of the statements *)

(** ** Snapshots: the value a reference denotes, read through the store *)

(** The value of a map with every reference in it followed: what two maps
    in two stores have in common when they are equal as Go values. *)
#[local] Set Warnings "-register-all".
Inductive tree :=
  | TStr (s : string)
  | TSlice (ms : list tree)
  | TNil
  | TMap (m : gmap string tree)
  | TBad.

(** The tree of a value stored under [any], given the tree of each
    reference. *)
Definition tree_of_any (snap : mapref -> tree) (v : any) : tree :=
  match v with
  | VStr s => TStr s
  | VMaps ms => TSlice (snap <$> ms)
  end.

(** The tree of a reference in a store, following references [fuel] deep;
    [TBad] marks a reference cut off by the fuel or dangling. *)
Fixpoint snapshot (fuel : nat) (h : heap) (r : mapref) : tree :=
  match fuel with
  | 0 => TBad
  | S f =>
      match r with
      | Nil => TNil
      | Ref l =>
          match h !! l with
          | Some (OAnyMap m) => TMap (tree_of_any (snapshot f h) <$> m)
          | Some (OStrMap m) => TMap (TStr <$> m)
          | None => TBad
          end
      end
  end.

(** A snapshot is complete when no reference in it was cut off or left
    dangling. *)
Fixpoint complete (t : tree) : bool :=
  match t with
  | TStr _ => true
  | TSlice ms => forallb complete ms
  | TNil => true
  | TMap m => map_fold (fun _ t b => complete t && b) true m
  | TBad => false
  end.

(** [creds_at h creds c]: in store [h] the credential map [creds] has
    content [c] (a nil map reads as the empty map). *)
Definition creds_at (h : heap) (creds : mapref) (c : gmap string string) : Prop :=
  match creds with
  | Nil => c = ∅
  | Ref l => h !! l = Some (OStrMap c)
  end.

(** [config_at h r cfg]: in store [h] the reference [r] is a
    [map[string]any] with content [cfg]. *)
Definition config_at (h : heap) (r : mapref) (cfg : gmap string any) : Prop :=
  match r with
  | Nil => False
  | Ref l => h !! l = Some (OAnyMap cfg)
  end.

(** The effect of [if v, ok := creds[k]; ok { config[k] = v }] on the
    content of [config]. *)
Definition copy (k : string) (c : gmap string string) (m : gmap string any)
  : gmap string any :=
  match c !! k with
  | Some v => <[k := VStr v]> m
  | None => m
  end.

(** The contents of the maps that the three builders fill, and of the loop
    of mergeMaps over entries taken in a given order. *)
Definition gss_fields (c : gmap string string) : gmap string any :=
  copy keyTab c (copy keyPassword c (copy keyUsername c (copy keyRealm c ∅))).

Definition secret_fields (c : gmap string string) : gmap string any :=
  copy transactionKeySecret c
    (copy transactionKeyAlgorithm c (copy transcationKeyName c ∅)).

Definition optional_fields (c : gmap string string) : gmap string any :=
  copy keyTransport c (copy keyTimeout c (copy keyRetries c (copy keyPort c ∅))).

Definition merge_list (kvs : list (string * any)) (a : gmap string any)
  : gmap string any :=
  foldl (fun m kv => <[kv.1 := kv.2]> m) a kvs.

(** What buildAuthConfig has put in the configuration map allocated at
    [l] before the optional fields are merged in, and the maps it allocates
    after it. *)
Definition mode_fields (l : loc) (c : gmap string string) : gmap string any :=
  match c !! keyRFC with
  | Some rfc =>
      if String.eqb rfc gsstsigRFC then
        <[gssapi := VMaps [Ref (S l)]]> (copy keyServer c ∅)
      else if String.eqb rfc keyBasedTransactionRFC then
        secret_fields c ∪ copy keyServer c ∅
      else copy keyServer c ∅
  | None => copy keyServer c ∅
  end.

Definition aux_maps (c : gmap string string) : list obj :=
  match c !! keyRFC with
  | Some rfc =>
      if String.eqb rfc gsstsigRFC then
        [OAnyMap (gss_fields c); OAnyMap (optional_fields c)]
      else if String.eqb rfc keyBasedTransactionRFC then
        [OAnyMap (secret_fields c); OAnyMap (optional_fields c)]
      else [OAnyMap (optional_fields c)]
  | None => [OAnyMap (optional_fields c)]
  end.

(** A map that binds strings only. *)
Definition all_str (m : gmap string any) : Prop :=
  forall k v, m !! k = Some v -> exists s, v = VStr s.

(** The tree of a map that holds strings only. *)
Definition strs (m : gmap string any) : gmap string tree :=
  tree_of_any (fun _ => TBad) <$> m.

(** The tree that the result of buildAuthConfig denotes, as a function of
    the content of the credential map alone. *)
Definition config_tree (fuel : nat) (c : gmap string string) : tree :=
  match fuel with
  | 0 => TBad
  | S f =>
      TMap (strs (optional_fields c) ∪
            match c !! keyRFC with
            | Some rfc =>
                if String.eqb rfc gsstsigRFC then
                  <[gssapi := TSlice [match f with
                                      | 0 => TBad
                                      | S _ => TMap (strs (gss_fields c))
                                      end]]>
                    (strs (copy keyServer c ∅))
                else if String.eqb rfc keyBasedTransactionRFC then
                  strs (secret_fields c) ∪ strs (copy keyServer c ∅)
                else strs (copy keyServer c ∅)
            | None => strs (copy keyServer c ∅)
            end)
  end.

(** ** Example inputs *)

Definition example_gss_creds : gmap string string :=
  {[ "rfc" := "3645"; "server" := "10.0.0.1"; "realm" := "EXAMPLE.COM";
     "username" := "dns-admin"; "port" := "53"; "key_name" := "ignored" ]}.

Definition example_key_creds : gmap string string :=
  {[ "rfc" := "2845"; "server" := "10.0.0.1"; "key_name" := "tsig.";
     "key_secret" := "c2VjcmV0"; "timeout" := "5"; "realm" := "ignored" ]}.

Definition example_plain_creds : gmap string string :=
  {[ "server" := "10.0.0.1"; "port" := "5353"; "transport" := "tcp";
     "key_name" := "ignored"; "password" := "ignored" ]}.

Definition example_unknown_creds : gmap string string :=
  {[ "rfc" := "2136"; "server" := "10.0.0.1"; "retries" := "3";
     "key_name" := "ignored"; "realm" := "ignored" ]}.

Definition example_table : gmap string nat :=
  {[ "dns_a_record_set" := 1; "dns_cname_record" := 2; "dns_ptr_record" := 3 ]}.

(** ** Include lists and controller setup *)

(** A resource name as an exact-match regular expression. *)
Definition exact (n : string) : string := String.append n "$".

(** The kinds of DNS record that the provider manages, and the generated
    package whose controller reconciles each. *)
Inductive RecordKind := A | AAAA | CNAME | MX | NS | PTR | SRV | TXT.

Definition package_of (k : RecordKind) : controller.Package :=
  match k with
  | A => controller.arecordset
  | AAAA => controller.aaaarecordset
  | CNAME => controller.cnamerecord
  | MX => controller.mxrecordset
  | NS => controller.nsrecordset
  | PTR => controller.ptrrecord
  | SRV => controller.srvrecordset
  | TXT => controller.txtrecordset
  end.

(** [chain setup o pkgs m m']: starting from manager [m], the setup
    functions of [pkgs] were called one after the other, each returned no
    error, and the last left the manager [m']. *)
Fixpoint chain {Manager Options : Type}
    (setup : controller.Package -> Manager -> Options -> Manager * option error)
    (o : Options) (pkgs : list controller.Package) (m m' : Manager) : Prop :=
  match pkgs with
  | [] => m = m'
  | p :: pkgs => exists m1, setup p m o = (m1, None) /\ chain setup o pkgs m1 m'
  end.

Definition setup_list : list controller.Package :=
  [controller.providerconfig; controller.cnamerecord; controller.ptrrecord;
   controller.aaaarecordset; controller.arecordset; controller.mxrecordset;
   controller.nsrecordset; controller.srvrecordset; controller.txtrecordset].

(** ** The setup function *)

(** An instance of the frameworks for examples: the name of a cluster
    ProviderConfig stands for its credentials source, the extractor fails
    for the source "None" and otherwise returns the source as data, and only
    the data "Secret" unmarshals. *)
Definition example_frameworks : Frameworks := {|
  Ctx := unit;
  Client := unit;
  ClusterSpec := string;
  Provider := unit;
  Diagnostics := string;
  MetaT := unit;
  FwProvider := unit;
  client_Get_cluster := fun _ _ name => (name, None);
  tracker_Track := fun _ _ _ => None;
  json_Marshal_spec := fun spec => (String.list_byte_of_string spec, None);
  json_Unmarshal_spec := fun data =>
    ({| Credentials :=
          {| Source := String.string_of_list_byte data;
             Selectors := {| Fs := None; Env := None; SecretRef := None |} |} |},
     None);
  scheme_New := fun _ _ => (Some true, None);
  client_Get := fun _ _ _ name _ =>
    (ClusterProviderConfig
       {| Credentials :=
            {| Source := name;
               Selectors := {| Fs := None; Env := None; SecretRef := None |} |} |},
     None);
  CommonCredentialExtractor := fun _ source _ _ =>
    if String.eqb source "None"
    then ([], Some (ErrNew "no credentials source"))
    else (String.list_byte_of_string source, None);
  json_Unmarshal_creds := fun data c =>
    if String.eqb (String.string_of_list_byte data) "Secret"
    then (Some example_gss_creds, None)
    else (Some c, Some (ErrNew "invalid character"));
  Provider_Configure := fun _ p _ _ => (p, None);
  HasError := fun _ => false;
  show_Diagnostics := fun d => d;
  Provider_Meta := fun _ => Some tt;
  xpprovider_GetProvider := fun _ => Some tt
|}.

(** The example frameworks with a scheme that builds, for every kind, an
    object that is no [client.Object]. *)
Definition example_not_object_frameworks : Frameworks := {|
  Ctx := unit;
  Client := unit;
  ClusterSpec := string;
  Provider := unit;
  Diagnostics := string;
  MetaT := unit;
  FwProvider := unit;
  client_Get_cluster := client_Get_cluster (Frameworks := example_frameworks);
  tracker_Track := tracker_Track (Frameworks := example_frameworks);
  json_Marshal_spec := json_Marshal_spec (Frameworks := example_frameworks);
  json_Unmarshal_spec := json_Unmarshal_spec (Frameworks := example_frameworks);
  scheme_New := fun _ _ => (Some false, None);
  client_Get := client_Get (Frameworks := example_frameworks);
  CommonCredentialExtractor :=
    CommonCredentialExtractor (Frameworks := example_frameworks);
  json_Unmarshal_creds := json_Unmarshal_creds (Frameworks := example_frameworks);
  Provider_Configure := Provider_Configure (Frameworks := example_frameworks);
  HasError := HasError (Frameworks := example_frameworks);
  show_Diagnostics := show_Diagnostics (Frameworks := example_frameworks);
  Provider_Meta := Provider_Meta (Frameworks := example_frameworks);
  xpprovider_GetProvider := xpprovider_GetProvider (Frameworks := example_frameworks)
|}.

(** [configuration_is_update c out]: the outcome [out] of the setup function
    is a return, and the Configuration of the terraform.Setup returned is a
    map with the single key "update", bound to a one-element slice whose
    element [auth] is what buildAuthConfig returns on a credential map with
    content [c]. *)
Definition configuration_is_update `{Frameworks}
    (range_order : nat -> list (string * any) -> list (string * any))
    (c : gmap string string)
    (out : result ((Setup * option error) * state)) : Prop :=
  exists ps err s' l auth creds sa sb,
    out = Ok ((ps, err), s') /\
    Configuration ps = Ref l /\
    config_at (hp s') (Ref l) {[ "update" := VMaps [auth] ]} /\
    creds_at (hp sa) creds c /\
    run (buildAuthConfig range_order creds) sa = Ok (auth, sb) /\
    forall fuel, snapshot fuel (hp s') auth = snapshot fuel (hp sb) auth.

(** ** Further vocabulary *)

(** The keys of the credential map that buildAuthConfig reads. *)
Definition credential_keys : list string :=
  [keyRFC; keyServer; keyPort; keyRetries; keyTimeout; keyTransport;
   keyRealm; keyUsername; keyPassword; keyTab;
   transcationKeyName; transactionKeyAlgorithm; transactionKeySecret].

(** [resolve_error ctx client mg e]: the failures of resolveProviderConfig
    on the managed resource [mg], each with the step that fails, the steps
    before it that did not, and the error [e] it gives: an error of its own,
    the error of the failing call wrapped with the message of that call, or,
    for the re-encoding of a legacy spec, the error of json as it is. *)
Inductive resolve_error `{Frameworks} (ctx : Ctx) (client : Client)
  : Managed -> error -> Prop :=
  | re_not_managed :
      resolve_error ctx client NotManaged
        (ErrNew "resource is not a managed resource")
  | re_no_ref_legacy :
      resolve_error ctx client (LegacyManaged None) (ErrNew errNoProviderConfig)
  | re_no_ref_modern namespace :
      resolve_error ctx client (ModernManaged None namespace)
        (ErrNew errNoProviderConfig)
  | re_get_legacy name pc e :
      client_Get_cluster ctx client name = (pc, Some e) ->
      resolve_error ctx client (LegacyManaged (Some name))
        (ErrWrap e errGetProviderConfig)
  | re_track_legacy name pc e :
      client_Get_cluster ctx client name = (pc, None) ->
      tracker_Track ctx client (LegacyManaged (Some name)) = Some e ->
      resolve_error ctx client (LegacyManaged (Some name))
        (ErrWrap e errTrackUsage)
  | re_marshal name pc data e :
      client_Get_cluster ctx client name = (pc, None) ->
      tracker_Track ctx client (LegacyManaged (Some name)) = None ->
      json_Marshal_spec pc = (data, Some e) ->
      resolve_error ctx client (LegacyManaged (Some name)) e
  | re_unmarshal name pc data spec e :
      client_Get_cluster ctx client name = (pc, None) ->
      tracker_Track ctx client (LegacyManaged (Some name)) = None ->
      json_Marshal_spec pc = (data, None) ->
      json_Unmarshal_spec data = (spec, Some e) ->
      resolve_error ctx client (LegacyManaged (Some name)) e
  | re_gvk name kind namespace obj e :
      scheme_New client kind = (obj, Some e) ->
      resolve_error ctx client (ModernManaged (Some (name, kind)) namespace)
        (ErrWrap e "unknown GVK for ProviderConfig")
  | re_not_object name kind namespace obj :
      scheme_New client kind = (obj, None) ->
      obj <> Some true ->
      resolve_error ctx client (ModernManaged (Some (name, kind)) namespace)
        (ErrNew " is not an Object")
  | re_get_modern name kind namespace o e :
      scheme_New client kind = (Some true, None) ->
      client_Get ctx client kind name namespace = (o, Some e) ->
      resolve_error ctx client (ModernManaged (Some (name, kind)) namespace)
        (ErrWrap e errGetProviderConfig)
  | re_unknown_type name kind namespace :
      scheme_New client kind = (Some true, None) ->
      client_Get ctx client kind name namespace = (OtherObject, None) ->
      resolve_error ctx client (ModernManaged (Some (name, kind)) namespace)
        (ErrNew "unknown provider config type")
  | re_track_modern name kind namespace o e :
      scheme_New client kind = (Some true, None) ->
      client_Get ctx client kind name namespace = (o, None) ->
      o <> OtherObject ->
      tracker_Track ctx client (ModernManaged (Some (name, kind)) namespace)
      = Some e ->
      resolve_error ctx client (ModernManaged (Some (name, kind)) namespace)
        (ErrWrap e errTrackUsage).

(** The spec of a namespaced ProviderConfig with the namespace of its secret
    reference, when it has one, replaced by [namespace]. *)
Definition in_namespace (namespace : string) (spec : ProviderConfigSpec)
  : ProviderConfigSpec :=
  {| Credentials :=
       {| Source := Source (Credentials spec);
          Selectors :=
            {| Fs := Fs (Selectors (Credentials spec));
               Env := Env (Selectors (Credentials spec));
               SecretRef :=
                 (fun ref => {| sks_Name := sks_Name ref;
                                sks_Namespace := namespace;
                                sks_Key := sks_Key ref |})
                   <$> SecretRef (Selectors (Credentials spec)) |} |} |}.

(** The error that configureNoForkDNSClient returns for the diagnostics of
    [p.Configure]. *)
Definition configure_error `{Frameworks} (diag : option Diagnostics)
  : option error :=
  match diag with
  | Some d =>
      if HasError d
      then Some (ErrNew (String.append "failed to configure the provider: "
                           (show_Diagnostics d)))
      else None
  | None => None
  end.

(** An instance of the frameworks in which every ProviderConfig read
    through the scheme is a namespaced one whose secret reference names the
    namespace "kube-system". *)
Definition example_namespaced_frameworks : Frameworks := {|
  Ctx := unit;
  Client := unit;
  ClusterSpec := string;
  Provider := unit;
  Diagnostics := string;
  MetaT := unit;
  FwProvider := unit;
  client_Get_cluster := fun _ _ name => (name, None);
  tracker_Track := fun _ _ _ => None;
  json_Marshal_spec := fun spec => (String.list_byte_of_string spec, None);
  json_Unmarshal_spec := fun data =>
    ({| Credentials :=
          {| Source := String.string_of_list_byte data;
             Selectors := {| Fs := None; Env := None; SecretRef := None |} |} |},
     Some (ErrNew "json: cannot unmarshal"));
  scheme_New := fun _ _ => (Some true, None);
  client_Get := fun _ _ _ name _ =>
    (NamespacedProviderConfig
       {| Credentials :=
            {| Source := "Secret";
               Selectors :=
                 {| Fs := None; Env := None;
                    SecretRef := Some {| sks_Name := name;
                                         sks_Namespace := "kube-system";
                                         sks_Key := "credentials" |} |} |} |},
     None);
  CommonCredentialExtractor := fun _ source _ _ =>
    (String.list_byte_of_string source, None);
  json_Unmarshal_creds := fun data c => (None, None);
  Provider_Configure := fun _ p _ _ => (p, Some "invalid server address");
  HasError := fun _ => true;
  show_Diagnostics := fun d => d;
  Provider_Meta := fun _ => Some tt;
  xpprovider_GetProvider := fun _ => None
|}.

(** * Lemmas and theorems *)

(** ** Store lemmas *)

Lemma creds_at_app h t creds c : creds_at h creds c -> creds_at (h ++ t) creds c.
Proof.
  destruct creds as [|l]; simpl; [done|].
  apply lookup_app_l_Some.
Qed.

Lemma creds_at_inj h creds c1 c2 :
  creds_at h creds c1 -> creds_at h creds c2 -> c1 = c2.
Proof.
  destruct creds as [|l]; simpl; intros H1 H2; congruence.
Qed.

Lemma run_bind {A B} (m : M A) (f : A -> M B) s :
  run (bind m f) s =
  match run m s with
  | Ok (a, s') => run (f a) s'
  | Panic e => Panic e
  end.
Proof. reflexivity. Qed.

Lemma run_ret {A} (a : A) s : run (ret a) s = Ok (a, s).
Proof. reflexivity. Qed.

Lemma run_new_map h n :
  run new_map (State h n) = Ok (Ref (length h), State (h ++ [OAnyMap ∅]) n).
Proof. reflexivity. Qed.

Lemma run_smap_get h n creds c k :
  creds_at h creds c ->
  run (smap_get creds k) (State h n) = Ok (c !! k, State h n).
Proof.
  destruct creds as [|l]; simpl; intros H.
  - subst c. by rewrite lookup_empty.
  - unfold run, smap_get. cbn [hp]. by rewrite H.
Qed.

Lemma run_amap_set h t m n k v :
  run (amap_set (Ref (length h)) k v) (State (h ++ OAnyMap m :: t) n)
  = Ok (tt, State (h ++ OAnyMap (<[k := v]> m) :: t) n).
Proof.
  unfold run, amap_set. cbn [hp ranges].
  rewrite list_lookup_middle by done.
  replace (length h) with (length h + 0) at 1 by lia.
  by rewrite insert_app_r.
Qed.

(** One guarded copy of a credential field, followed by the rest of the
    function. *)
Lemma run_copy_field {A} h t m n creds c k (rest : M A) :
  creds_at h creds c ->
  run (v <- smap_get creds k ;;
       match v with
       | Some v => amap_set (Ref (length h)) k (VStr v)
       | None => ret tt
       end ;;; rest) (State (h ++ OAnyMap m :: t) n)
  = run rest (State (h ++ OAnyMap (copy k c m) :: t) n).
Proof.
  intros Hc. rewrite run_bind.
  rewrite (run_smap_get _ _ _ c) by (by apply creds_at_app).
  rewrite run_bind. unfold copy.
  destruct (c !! k) as [v|].
  - by rewrite run_amap_set.
  - by rewrite run_ret.
Qed.

Lemma run_buildGSSTSIGAuthConfig h n creds c :
  creds_at h creds c ->
  run (buildGSSTSIGAuthConfig creds) (State h n)
  = Ok (Ref (length h), State (h ++ [OAnyMap (gss_fields c)]) n).
Proof.
  intros Hc. unfold buildGSSTSIGAuthConfig.
  rewrite run_bind, run_new_map.
  by rewrite !(run_copy_field h [] _ n creds c).
Qed.

Lemma run_buildSecretBasedTransactionAuthConfig h n creds c :
  creds_at h creds c ->
  run (buildSecretBasedTransactionAuthConfig creds) (State h n)
  = Ok (Ref (length h), State (h ++ [OAnyMap (secret_fields c)]) n).
Proof.
  intros Hc. unfold buildSecretBasedTransactionAuthConfig.
  rewrite run_bind, run_new_map.
  by rewrite !(run_copy_field h [] _ n creds c).
Qed.

Lemma run_buildOptionalConfig h n creds c :
  creds_at h creds c ->
  run (buildOptionalConfig creds) (State h n)
  = Ok (Ref (length h), State (h ++ [OAnyMap (optional_fields c)]) n).
Proof.
  intros Hc. unfold buildOptionalConfig.
  rewrite run_bind, run_new_map.
  by rewrite !(run_copy_field h [] _ n creds c).
Qed.

(** ** The loop of mergeMaps *)

Lemma merge_list_union kvs a :
  merge_list kvs a = list_to_map (reverse kvs) ∪ a.
Proof.
  revert a. induction kvs as [|[k v] kvs IH]; intros a.
  - simpl. by rewrite (left_id_L ∅ (∪)).
  - unfold merge_list in *. simpl. rewrite IH.
    rewrite reverse_cons, list_to_map_app. simpl.
    rewrite insert_empty, <- (assoc_L (∪)).
    by rewrite <- insert_union_singleton_l.
Qed.

Lemma merge_list_perm kvs (a b : gmap string any) :
  kvs ≡ₚ map_to_list b -> merge_list kvs a = b ∪ a.
Proof.
  intros Hp. rewrite merge_list_union. f_equal.
  rewrite <- (list_to_map_to_list b).
  apply list_to_map_proper.
  - rewrite reverse_Permutation, Hp. apply NoDup_fst_map_to_list.
  - by rewrite reverse_Permutation.
Qed.

Lemma run_for_each_set h t m n kvs :
  run (for_each kvs (fun kv => amap_set (Ref (length h)) kv.1 kv.2))
      (State (h ++ OAnyMap m :: t) n)
  = Ok (tt, State (h ++ OAnyMap (merge_list kvs m) :: t) n).
Proof.
  revert m. induction kvs as [|kv kvs IH]; intros m; simpl.
  - by rewrite run_ret.
  - rewrite run_bind, run_amap_set. by rewrite IH.
Qed.

Section Runtime.

Variable range_order : nat -> list (string * any) -> list (string * any).
Hypothesis range_order_perm : forall n l, range_order n l ≡ₚ l.

Lemma run_amap_range h n l b :
  h !! l = Some (OAnyMap b) ->
  run (amap_range range_order (Ref l)) (State h n)
  = Ok (range_order n (map_to_list b), State h (S n)).
Proof.
  intros Hb. unfold run, amap_range. cbn [hp ranges]. by rewrite Hb.
Qed.

Lemma run_mergeMaps h t a n lb b :
  (h ++ OAnyMap a :: t) !! lb = Some (OAnyMap b) ->
  run (mergeMaps range_order (Ref (length h)) (Ref lb))
      (State (h ++ OAnyMap a :: t) n)
  = Ok (tt, State (h ++ OAnyMap (b ∪ a) :: t) (S n)).
Proof.
  intros Hb. unfold mergeMaps. rewrite run_bind.
  rewrite (run_amap_range _ _ _ b) by done.
  rewrite run_for_each_set.
  by rewrite (merge_list_perm _ a b).
Qed.

Lemma run_buildAuthConfig_gss h n creds c :
  creds_at h creds c ->
  c !! keyRFC = Some gsstsigRFC ->
  run (buildAuthConfig range_order creds) (State h n)
  = Ok (Ref (length h),
        State (h ++ [OAnyMap (optional_fields c ∪
                              <[gssapi := VMaps [Ref (S (length h))]]>
                                (copy keyServer c ∅));
                     OAnyMap (gss_fields c);
                     OAnyMap (optional_fields c)]) (S n)).
Proof.
  intros Hc Hrfc. unfold buildAuthConfig.
  rewrite run_bind, run_new_map.
  rewrite (run_copy_field h [] _ n creds c) by done.
  rewrite run_bind, (run_smap_get _ _ _ c) by (by apply creds_at_app).
  rewrite Hrfc, String.eqb_refl, !run_bind.
  rewrite (run_buildGSSTSIGAuthConfig _ _ _ c) by (by apply creds_at_app).
  rewrite <- app_assoc. cbn [app].
  rewrite run_amap_set, run_bind.
  rewrite (run_buildOptionalConfig _ _ _ c) by (by apply creds_at_app).
  rewrite <- app_assoc. cbn [app].
  rewrite run_bind, (run_mergeMaps _ _ _ _ _ (optional_fields c)).
  - rewrite run_ret. rewrite length_app. cbn [length].
    by rewrite Nat.add_1_r.
  - rewrite !length_app. cbn [length].
    rewrite lookup_app_r by lia.
    by replace (length h + 2 - length h) with 2 by lia.
Qed.

Lemma run_buildAuthConfig_key h n creds c :
  creds_at h creds c ->
  c !! keyRFC = Some keyBasedTransactionRFC ->
  run (buildAuthConfig range_order creds) (State h n)
  = Ok (Ref (length h),
        State (h ++ [OAnyMap (optional_fields c ∪
                              (secret_fields c ∪ copy keyServer c ∅));
                     OAnyMap (secret_fields c);
                     OAnyMap (optional_fields c)]) (S (S n))).
Proof.
  intros Hc Hrfc. unfold buildAuthConfig.
  rewrite run_bind, run_new_map.
  rewrite (run_copy_field h [] _ n creds c) by done.
  rewrite run_bind, (run_smap_get _ _ _ c) by (by apply creds_at_app).
  rewrite Hrfc, String.eqb_refl.
  change (String.eqb keyBasedTransactionRFC gsstsigRFC) with false.
  rewrite !run_bind.
  rewrite (run_buildSecretBasedTransactionAuthConfig _ _ _ c)
    by (by apply creds_at_app).
  rewrite <- app_assoc. cbn [app].
  rewrite (run_mergeMaps _ _ _ _ _ (secret_fields c)).
  2:{ rewrite length_app. cbn [length].
      rewrite lookup_app_r by lia.
      by replace (length h + 1 - length h) with 1 by lia. }
  rewrite run_bind, (run_buildOptionalConfig _ _ _ c)
    by (by apply creds_at_app).
  rewrite <- app_assoc. cbn [app].
  rewrite run_bind, (run_mergeMaps _ _ _ _ _ (optional_fields c)).
  - by rewrite run_ret.
  - rewrite !length_app. cbn [length].
    rewrite lookup_app_r by lia.
    by replace (length h + 2 - length h) with 2 by lia.
Qed.

Lemma run_buildAuthConfig_default h n creds c :
  creds_at h creds c ->
  (forall rfc, c !! keyRFC = Some rfc ->
               rfc <> gsstsigRFC /\ rfc <> keyBasedTransactionRFC) ->
  run (buildAuthConfig range_order creds) (State h n)
  = Ok (Ref (length h),
        State (h ++ [OAnyMap (optional_fields c ∪ copy keyServer c ∅);
                     OAnyMap (optional_fields c)]) (S n)).
Proof.
  intros Hc Hrfc. unfold buildAuthConfig.
  rewrite run_bind, run_new_map.
  rewrite (run_copy_field h [] _ n creds c) by done.
  rewrite run_bind, (run_smap_get _ _ _ c) by (by apply creds_at_app).
  rewrite run_bind.
  assert (run (match c !! keyRFC with
               | Some rfc =>
                   if String.eqb rfc gsstsigRFC then
                     authConfig <- buildGSSTSIGAuthConfig creds ;;
                     amap_set (Ref (length h)) gssapi (VMaps [authConfig])
                   else if String.eqb rfc keyBasedTransactionRFC then
                     s <- buildSecretBasedTransactionAuthConfig creds ;;
                     mergeMaps range_order (Ref (length h)) s
                   else ret tt
               | None => ret tt
               end) (State (h ++ [OAnyMap (copy keyServer c ∅)]) n)
          = Ok (tt, State (h ++ [OAnyMap (copy keyServer c ∅)]) n)) as ->.
  { destruct (c !! keyRFC) as [rfc|]; [|done].
    destruct (Hrfc rfc eq_refl) as [H1 H2].
    apply String.eqb_neq in H1, H2. by rewrite H1, H2. }
  rewrite run_bind, (run_buildOptionalConfig _ _ _ c)
    by (by apply creds_at_app).
  rewrite <- app_assoc. cbn [app].
  rewrite run_bind, (run_mergeMaps _ _ _ _ _ (optional_fields c)).
  - by rewrite run_ret.
  - rewrite !length_app. cbn [length].
    rewrite lookup_app_r by lia.
    by replace (length h + 1 - length h) with 1 by lia.
Qed.

End Runtime.

(** ** Contents of the maps that are built *)

Lemma lookup_copy k c m j :
  copy k c m !! j =
  if decide (k = j)
  then match c !! k with Some v => Some (VStr v) | None => m !! j end
  else m !! j.
Proof.
  unfold copy. case_decide as Hk.
  - subst j. destruct (c !! k); [by rewrite lookup_insert_eq | done].
  - destruct (c !! k); [by rewrite lookup_insert_ne | done].
Qed.

Ltac unfold_keys :=
  unfold keyRFC, keyServer, update, keyPort, keyRetries, keyTimeout,
    keyTransport, gsstsigRFC, gssapi, keyTab, keyPassword, keyRealm,
    keyUsername, keyBasedTransactionRFC, transactionKeyAlgorithm,
    transcationKeyName, transactionKeySecret in *.

Ltac field_cases :=
  unfold_keys;
  rewrite ?lookup_copy, ?lookup_empty;
  repeat case_decide; subst;
  try (exfalso;
       repeat match goal with
         | H : context [_ ∈ _ :: _] |- _ => rewrite elem_of_cons in H
         | H : context [_ ∈ []] |- _ => rewrite elem_of_nil in H
         end;
       intuition congruence);
  try match goal with
    | |- context [?c !! ?k] => destruct (c !! k)
    end;
  try done.

Lemma gss_fields_lookup c j :
  gss_fields c !! j =
  if bool_decide (j ∈ [keyRealm; keyUsername; keyPassword; keyTab])
  then VStr <$> c !! j else None.
Proof. unfold gss_fields. field_cases. Qed.

Lemma secret_fields_lookup c j :
  secret_fields c !! j =
  if bool_decide (j ∈ [transcationKeyName; transactionKeyAlgorithm;
                       transactionKeySecret])
  then VStr <$> c !! j else None.
Proof. unfold secret_fields. field_cases. Qed.

Lemma optional_fields_lookup c j :
  optional_fields c !! j =
  if bool_decide (j ∈ [keyPort; keyRetries; keyTimeout; keyTransport])
  then VStr <$> c !! j else None.
Proof. unfold optional_fields. field_cases. Qed.

Lemma server_field_lookup c j :
  copy keyServer c ∅ !! j =
  if bool_decide (j = keyServer) then VStr <$> c !! j else None.
Proof. field_cases. Qed.

(** The three modes together: what buildAuthConfig leaves in the store. *)

Lemma run_buildAuthConfig range_order h n creds c :
  (forall n l, range_order n l ≡ₚ l) ->
  creds_at h creds c ->
  exists n',
    run (buildAuthConfig range_order creds) (State h n)
    = Ok (Ref (length h),
          State (h ++ OAnyMap (optional_fields c ∪ mode_fields (length h) c)
                   :: aux_maps c) n').
Proof.
  intros Hperm Hc. unfold mode_fields, aux_maps.
  destruct (c !! keyRFC) as [rfc|] eqn:Hrfc.
  - destruct (String.eqb_spec rfc gsstsigRFC) as [->|Hg].
    { eexists. by apply run_buildAuthConfig_gss. }
    destruct (String.eqb_spec rfc keyBasedTransactionRFC) as [->|Hk].
    { eexists. by apply run_buildAuthConfig_key. }
    eexists. apply run_buildAuthConfig_default; [done..|].
    intros rfc' Hrfc'. rewrite Hrfc in Hrfc'. by simplify_eq.
  - eexists. apply run_buildAuthConfig_default; [done..|].
    intros rfc' Hrfc'. by rewrite Hrfc in Hrfc'.
Qed.

Lemma mode_fields_optional l c k :
  k ∈ [keyPort; keyRetries; keyTimeout; keyTransport] ->
  mode_fields l c !! k = None.
Proof.
  intros Hk. unfold mode_fields.
  assert (copy keyServer c ∅ !! k = None) as Hs.
  { rewrite server_field_lookup. rewrite bool_decide_eq_false_2; [done|].
    intros ->. revert Hk. unfold_keys. rewrite !elem_of_cons, elem_of_nil.
    intuition congruence. }
  assert (secret_fields c !! k = None) as Hsec.
  { rewrite secret_fields_lookup. rewrite bool_decide_eq_false_2; [done|].
    revert Hk. unfold_keys. rewrite !elem_of_cons, !elem_of_nil.
    intuition congruence. }
  destruct (c !! keyRFC) as [rfc|]; [|done].
  destruct (String.eqb rfc gsstsigRFC).
  { rewrite lookup_insert_ne; [done|].
    intros <-. revert Hk. unfold_keys. rewrite !elem_of_cons, elem_of_nil.
    intuition congruence. }
  destruct (String.eqb rfc keyBasedTransactionRFC); [|done].
  by rewrite lookup_union_r.
Qed.

Ltac decide_fields :=
  repeat match goal with
    | |- context [bool_decide ?P] =>
        first
          [ rewrite (bool_decide_eq_true_2 P)
              by (unfold_keys; rewrite ?elem_of_cons, ?elem_of_nil;
                  intuition congruence)
          | rewrite (bool_decide_eq_false_2 P)
              by (unfold_keys; rewrite ?elem_of_cons, ?elem_of_nil;
                  intuition congruence) ]
    end.

Lemma default_fields_lookup c k :
  (optional_fields c ∪ copy keyServer c ∅) !! k =
  if bool_decide (k ∈ [keyServer; keyPort; keyRetries; keyTimeout; keyTransport])
  then VStr <$> c !! k else None.
Proof.
  rewrite lookup_union, optional_fields_lookup, server_field_lookup.
  repeat case_bool_decide; subst; try done;
    try (match goal with |- context [c !! ?j] => by destruct (c !! j) end);
    exfalso; unfold_keys.
  all: repeat match goal with
      | H : context [_ ∈ _ :: _] |- _ => rewrite elem_of_cons in H
      | H : context [_ ∈ []] |- _ => rewrite elem_of_nil in H
      end.
  all: intuition congruence.
Qed.

Lemma copy_delete k j c m : k <> j -> copy k (delete j c) m = copy k c m.
Proof. intros Hkj. unfold copy. by rewrite lookup_delete_ne. Qed.

(** ** The snapshot of the configuration that is built *)

Lemma all_str_empty : all_str ∅.
Proof. intros k v. by rewrite lookup_empty. Qed.

Lemma all_str_copy k c m : all_str m -> all_str (copy k c m).
Proof.
  intros Hm j v. rewrite lookup_copy. case_decide; [|apply Hm].
  destruct (c !! k); [|apply Hm]. intros [= <-]. eauto.
Qed.

Lemma all_str_union m1 m2 : all_str m1 -> all_str m2 -> all_str (m1 ∪ m2).
Proof.
  intros H1 H2 k v [Hv|[_ Hv]]%lookup_union_Some_raw; eauto.
Qed.

Lemma all_str_gss c : all_str (gss_fields c).
Proof. repeat apply all_str_copy. apply all_str_empty. Qed.

Lemma all_str_secret c : all_str (secret_fields c).
Proof. repeat apply all_str_copy. apply all_str_empty. Qed.

Lemma all_str_optional c : all_str (optional_fields c).
Proof. repeat apply all_str_copy. apply all_str_empty. Qed.

Lemma all_str_server c : all_str (copy keyServer c ∅).
Proof. apply all_str_copy, all_str_empty. Qed.

Lemma tree_of_any_strs snap m : all_str m -> tree_of_any snap <$> m = strs m.
Proof.
  intros Hm. apply map_eq. intros k. unfold strs. rewrite !lookup_fmap.
  destruct (m !! k) as [v|] eqn:Hk; [|done].
  by destruct (Hm k v Hk) as [s ->].
Qed.

Lemma complete_TMap (m : gmap string tree) :
  (forall k t, m !! k = Some t -> complete t = true) ->
  complete (TMap m) = true.
Proof.
  cbn [complete]. induction m as [|k t m Hk Hfold IH] using map_first_key_ind.
  - intros _. by rewrite map_fold_empty.
  - intros Hall. rewrite map_fold_insert_first_key by done.
    rewrite (Hall k t) by apply lookup_insert_eq. cbn.
    apply IH. intros j u Hj. apply (Hall j u).
    rewrite lookup_insert_ne; [done|]. intros <-. congruence.
Qed.

Lemma complete_strs m : all_str m -> complete (TMap (strs m)) = true.
Proof.
  intros Hm. apply complete_TMap. intros k t. unfold strs.
  rewrite lookup_fmap. destruct (m !! k) as [v|] eqn:Hk; [|done].
  destruct (Hm k v Hk) as [s ->]. by intros [= <-].
Qed.

Lemma snapshot_buildAuthConfig fuel h c :
  snapshot fuel
    (h ++ OAnyMap (optional_fields c ∪ mode_fields (length h) c) :: aux_maps c)
    (Ref (length h))
  = config_tree fuel c.
Proof.
  destruct fuel as [|f]; [done|]. cbn [snapshot config_tree].
  rewrite list_lookup_middle by done. f_equal.
  rewrite map_fmap_union, (tree_of_any_strs _ _ (all_str_optional c)). f_equal.
  unfold mode_fields, aux_maps.
  destruct (c !! keyRFC) as [rfc|];
    [|by apply tree_of_any_strs, all_str_server].
  destruct (String.eqb rfc gsstsigRFC).
  { rewrite fmap_insert, (tree_of_any_strs _ _ (all_str_server c)).
    cbn [tree_of_any fmap list_fmap]. do 3 f_equal.
    destruct f as [|f']; [done|]. cbn [snapshot].
    rewrite lookup_app_r by lia.
    replace (S (length h) - length h) with 1 by lia. cbn.
    by rewrite (tree_of_any_strs _ _ (all_str_gss c)). }
  destruct (String.eqb rfc keyBasedTransactionRFC).
  - rewrite map_fmap_union, (tree_of_any_strs _ _ (all_str_secret c)).
    by rewrite (tree_of_any_strs _ _ (all_str_server c)).
  - by apply tree_of_any_strs, all_str_server.
Qed.

Lemma snapshot_buildAuthConfig_at fuel h l c :
  l = length h ->
  snapshot fuel
    (h ++ OAnyMap (optional_fields c ∪ mode_fields l c) :: aux_maps c) (Ref l)
  = config_tree fuel c.
Proof. intros ->. apply snapshot_buildAuthConfig. Qed.

Lemma complete_config_tree fuel c : 3 <= fuel -> complete (config_tree fuel c) = true.
Proof.
  intros Hf. destruct fuel as [|[|f]]; [lia..|]. cbn [config_tree].
  apply complete_TMap. intros k t [Ht|[_ Ht]]%lookup_union_Some_raw.
  { revert Ht. unfold strs. rewrite lookup_fmap.
    destruct (optional_fields c !! k) as [v|] eqn:Hk; [|done].
    destruct (all_str_optional c k v Hk) as [s ->]. by intros [= <-]. }
  assert (forall m, all_str m -> strs m !! k = Some t -> complete t = true)
    as Hstrs.
  { intros m Hm. unfold strs. rewrite lookup_fmap.
    destruct (m !! k) as [v|] eqn:Hk; [|done].
    destruct (Hm k v Hk) as [s ->]. by intros [= <-]. }
  destruct (c !! keyRFC) as [rfc|]; [|by eapply Hstrs, Ht; apply all_str_server].
  destruct (String.eqb rfc gsstsigRFC).
  { revert Ht. rewrite lookup_insert. case_decide.
    - intros [= <-]. cbn [complete forallb]. rewrite andb_true_r.
      destruct f; [lia|]. apply complete_strs, all_str_gss.
    - apply Hstrs, all_str_server. }
  destruct (String.eqb rfc keyBasedTransactionRFC).
  - apply lookup_union_Some_raw in Ht as [Ht|[_ Ht]].
    + by eapply Hstrs, Ht; apply all_str_secret.
    + by eapply Hstrs, Ht; apply all_str_server.
  - by eapply Hstrs, Ht; apply all_str_server.
Qed.

(** ** Claims about buildAuthConfig *)

(** C1: when creds["rfc"] is "3645", buildAuthConfig returns a configuration
    map that binds "gssapi" to a one-element slice; its sole element is a
    map that holds exactly those of "realm", "username", "password" and
    "keytab" that are present in creds, each bound to its value in creds,
    and nothing else. *)
Theorem buildAuthConfig_gssapi
    (range_order : nat -> list (string * any) -> list (string * any))
    (s : state) (creds : mapref) (c : gmap string string) :
  (forall n l, range_order n l ≡ₚ l) ->
  creds_at (hp s) creds c ->
  c !! "rfc" = Some "3645" ->
  exists r s' cfg a auth,
    run (buildAuthConfig range_order creds) s = Ok (r, s') /\
    config_at (hp s') r cfg /\
    cfg !! "gssapi" = Some (VMaps [a]) /\
    config_at (hp s') a auth /\
    forall k,
      auth !! k =
      if bool_decide (k ∈ ["realm"; "username"; "password"; "keytab"])
      then VStr <$> c !! k else None.
Proof.
  intros Hperm Hc Hrfc. destruct s as [h n]. cbn [hp] in Hc.
  eexists _, _, _, (Ref (S (length h))), (gss_fields c).
  split; [by apply run_buildAuthConfig_gss|]. cbn [hp config_at].
  split; [by apply list_lookup_middle|].
  split.
  { rewrite lookup_union_r by (rewrite optional_fields_lookup; done).
    apply lookup_insert_eq. }
  split.
  { rewrite lookup_app_r by lia.
    by replace (S (length h) - length h) with 1 by lia. }
  intros k. apply gss_fields_lookup.
Qed.

Lemma buildAuthConfig_gssapi_witness :
  exists r s' cfg a auth,
    run (buildAuthConfig (fun _ l => l) (Ref 0))
        (State [OStrMap example_gss_creds] 0) = Ok (r, s') /\
    config_at (hp s') r cfg /\
    cfg !! "gssapi" = Some (VMaps [a]) /\
    config_at (hp s') a auth /\
    forall k,
      auth !! k =
      if bool_decide (k ∈ ["realm"; "username"; "password"; "keytab"])
      then VStr <$> example_gss_creds !! k else None.
Proof.
  apply (buildAuthConfig_gssapi (fun _ l => l)
           (State [OStrMap example_gss_creds] 0) (Ref 0) example_gss_creds).
  - intros n l. reflexivity.
  - reflexivity.
  - reflexivity.
Defined.

(** C2: when creds["rfc"] is "2845", the returned configuration map holds at
    its top level exactly those of "key_name", "key_algorithm" and
    "key_secret" that are present in creds, each bound to its value in
    creds, and has no "gssapi" key. *)
Theorem buildAuthConfig_transaction_key
    (range_order : nat -> list (string * any) -> list (string * any))
    (s : state) (creds : mapref) (c : gmap string string) :
  (forall n l, range_order n l ≡ₚ l) ->
  creds_at (hp s) creds c ->
  c !! "rfc" = Some "2845" ->
  exists r s' cfg,
    run (buildAuthConfig range_order creds) s = Ok (r, s') /\
    config_at (hp s') r cfg /\
    (forall k, k ∈ ["key_name"; "key_algorithm"; "key_secret"] ->
               cfg !! k = VStr <$> c !! k) /\
    cfg !! "gssapi" = None.
Proof.
  intros Hperm Hc Hrfc. destruct s as [h n]. cbn [hp] in Hc.
  eexists _, _, _.
  split; [by apply run_buildAuthConfig_key|]. cbn [hp config_at].
  split; [by apply list_lookup_middle|].
  split.
  - intros k Hk.
    rewrite !lookup_union, optional_fields_lookup, secret_fields_lookup,
      server_field_lookup.
    rewrite !elem_of_cons, elem_of_nil in Hk.
    destruct Hk as [->|[->|[->|[]]]]; decide_fields;
      match goal with |- context [c !! ?k] => by destruct (c !! k) end.
  - rewrite !lookup_union, optional_fields_lookup, secret_fields_lookup,
      server_field_lookup.
    by decide_fields.
Qed.

Lemma buildAuthConfig_transaction_key_witness :
  exists r s' cfg,
    run (buildAuthConfig (fun _ l => reverse l) (Ref 0))
        (State [OStrMap example_key_creds] 0) = Ok (r, s') /\
    config_at (hp s') r cfg /\
    (forall k, k ∈ ["key_name"; "key_algorithm"; "key_secret"] ->
               cfg !! k = VStr <$> example_key_creds !! k) /\
    cfg !! "gssapi" = None.
Proof.
  apply (buildAuthConfig_transaction_key (fun _ l => reverse l)
           (State [OStrMap example_key_creds] 0) (Ref 0) example_key_creds).
  - intros n l. apply reverse_Permutation.
  - reflexivity.
  - reflexivity.
Defined.

(** C3: when "rfc" is absent from creds, the returned configuration map
    binds "server" to creds["server"] exactly when "server" is present,
    carries the optional fields, and holds nothing else: no "gssapi", none
    of "key_name", "key_algorithm", "key_secret", "realm", "username",
    "password", "keytab". *)
Theorem buildAuthConfig_default_mode
    (range_order : nat -> list (string * any) -> list (string * any))
    (s : state) (creds : mapref) (c : gmap string string) :
  (forall n l, range_order n l ≡ₚ l) ->
  creds_at (hp s) creds c ->
  c !! "rfc" = None ->
  exists r s' cfg,
    run (buildAuthConfig range_order creds) s = Ok (r, s') /\
    config_at (hp s') r cfg /\
    cfg !! "server" = VStr <$> c !! "server" /\
    (forall k,
       cfg !! k =
       if bool_decide (k ∈ ["server"; "port"; "retries"; "timeout"; "transport"])
       then VStr <$> c !! k else None) /\
    (forall k, k ∈ ["gssapi"; "key_name"; "key_algorithm"; "key_secret";
                    "realm"; "username"; "password"; "keytab"] ->
               cfg !! k = None).
Proof.
  intros Hperm Hc Hrfc. destruct s as [h n]. cbn [hp] in Hc.
  eexists _, _, _.
  split.
  { apply run_buildAuthConfig_default; [done..|].
    intros rfc Hrfc'. unfold keyRFC in Hrfc'. congruence. }
  cbn [hp config_at].
  split; [by apply list_lookup_middle|].
  split; [by rewrite default_fields_lookup|].
  split; [apply default_fields_lookup|].
  intros k Hk. rewrite default_fields_lookup.
  rewrite !elem_of_cons, elem_of_nil in Hk.
  by destruct Hk as [->|[->|[->|[->|[->|[->|[->|[->|[]]]]]]]]]; decide_fields.
Qed.

Lemma buildAuthConfig_default_mode_witness :
  exists r s' cfg,
    run (buildAuthConfig (fun _ l => l) (Ref 0))
        (State [OStrMap example_plain_creds] 0) = Ok (r, s') /\
    config_at (hp s') r cfg /\
    cfg !! "server" = VStr <$> example_plain_creds !! "server" /\
    (forall k,
       cfg !! k =
       if bool_decide (k ∈ ["server"; "port"; "retries"; "timeout"; "transport"])
       then VStr <$> example_plain_creds !! k else None) /\
    (forall k, k ∈ ["gssapi"; "key_name"; "key_algorithm"; "key_secret";
                    "realm"; "username"; "password"; "keytab"] ->
               cfg !! k = None).
Proof.
  apply (buildAuthConfig_default_mode (fun _ l => l)
           (State [OStrMap example_plain_creds] 0) (Ref 0) example_plain_creds).
  - intros n l. reflexivity.
  - reflexivity.
  - reflexivity.
Defined.

(** C4: whatever creds["rfc"] is, and whether or not it is present, each of
    "port", "retries", "timeout", "transport" that is present in creds is
    bound at the top level of the result to its value in creds, and each
    that is absent from creds is absent from the result. *)
Theorem buildAuthConfig_optional
    (range_order : nat -> list (string * any) -> list (string * any))
    (s : state) (creds : mapref) (c : gmap string string) :
  (forall n l, range_order n l ≡ₚ l) ->
  creds_at (hp s) creds c ->
  exists r s' cfg,
    run (buildAuthConfig range_order creds) s = Ok (r, s') /\
    config_at (hp s') r cfg /\
    forall k, k ∈ ["port"; "retries"; "timeout"; "transport"] ->
              cfg !! k = VStr <$> c !! k.
Proof.
  intros Hperm Hc. destruct s as [h n]. cbn [hp] in Hc.
  destruct (run_buildAuthConfig range_order h n creds c Hperm Hc) as [n' Hrun].
  eexists _, _, _. split; [exact Hrun|]. cbn [hp config_at].
  split; [by apply list_lookup_middle|].
  intros k Hk.
  rewrite lookup_union, (mode_fields_optional _ _ _ Hk), optional_fields_lookup.
  rewrite bool_decide_eq_true_2 by exact Hk.
  by destruct (c !! k).
Qed.

Lemma buildAuthConfig_optional_witness :
  exists r s' cfg,
    run (buildAuthConfig (fun _ l => reverse l) (Ref 0))
        (State [OStrMap example_key_creds] 0) = Ok (r, s') /\
    config_at (hp s') r cfg /\
    forall k, k ∈ ["port"; "retries"; "timeout"; "transport"] ->
              cfg !! k = VStr <$> example_key_creds !! k.
Proof.
  apply (buildAuthConfig_optional (fun _ l => reverse l)
           (State [OStrMap example_key_creds] 0) (Ref 0) example_key_creds).
  - intros n l. apply reverse_Permutation.
  - reflexivity.
Defined.

(** C6: buildAuthConfig is pure and stateless.  Two invocations on
    credential maps with equal content, started in any two stores and under
    any two iteration orders of the runtime, both return, and return
    configuration maps that denote the same value; every object that was in
    the store before the call, the credential map included, is unchanged
    after it. *)
Theorem buildAuthConfig_pure
    (range_order1 range_order2 : nat -> list (string * any) -> list (string * any))
    (s1 s2 : state) (creds1 creds2 : mapref) (c : gmap string string) :
  (forall n l, range_order1 n l ≡ₚ l) ->
  (forall n l, range_order2 n l ≡ₚ l) ->
  creds_at (hp s1) creds1 c ->
  creds_at (hp s2) creds2 c ->
  exists r1 s1' r2 s2',
    run (buildAuthConfig range_order1 creds1) s1 = Ok (r1, s1') /\
    run (buildAuthConfig range_order2 creds2) s2 = Ok (r2, s2') /\
    (forall fuel, snapshot fuel (hp s1') r1 = snapshot fuel (hp s2') r2) /\
    complete (snapshot 3 (hp s1') r1) = true /\
    creds_at (hp s1') creds1 c /\
    creds_at (hp s2') creds2 c /\
    (forall l o, hp s1 !! l = Some o -> hp s1' !! l = Some o) /\
    (forall l o, hp s2 !! l = Some o -> hp s2' !! l = Some o).
Proof.
  intros Hperm1 Hperm2 Hc1 Hc2.
  destruct s1 as [h1 n1], s2 as [h2 n2]. cbn [hp] in *.
  destruct (run_buildAuthConfig range_order1 h1 n1 creds1 c Hperm1 Hc1)
    as [n1' Hrun1].
  destruct (run_buildAuthConfig range_order2 h2 n2 creds2 c Hperm2 Hc2)
    as [n2' Hrun2].
  eexists _, _, _, _. split; [exact Hrun1|]. split; [exact Hrun2|].
  cbn [hp].
  split; [intros fuel; by rewrite !snapshot_buildAuthConfig|].
  split; [rewrite snapshot_buildAuthConfig; by apply complete_config_tree|].
  split; [by apply creds_at_app|].
  split; [by apply creds_at_app|].
  split; intros l o; apply lookup_app_l_Some.
Qed.

Lemma buildAuthConfig_pure_witness :
  exists r1 s1' r2 s2',
    run (buildAuthConfig (fun _ l => l) (Ref 0))
        (State [OStrMap example_gss_creds] 0) = Ok (r1, s1') /\
    run (buildAuthConfig (fun _ l => reverse l) (Ref 1))
        (State [OAnyMap ∅; OStrMap example_gss_creds] 7) = Ok (r2, s2') /\
    (forall fuel, snapshot fuel (hp s1') r1 = snapshot fuel (hp s2') r2) /\
    complete (snapshot 3 (hp s1') r1) = true /\
    creds_at (hp s1') (Ref 0) example_gss_creds /\
    creds_at (hp s2') (Ref 1) example_gss_creds /\
    (forall l o, [OStrMap example_gss_creds] !! l = Some o ->
                 hp s1' !! l = Some o) /\
    (forall l o, [OAnyMap ∅; OStrMap example_gss_creds] !! l = Some o ->
                 hp s2' !! l = Some o).
Proof.
  apply (buildAuthConfig_pure (fun _ l => l) (fun _ l => reverse l)
           (State [OStrMap example_gss_creds] 0)
           (State [OAnyMap ∅; OStrMap example_gss_creds] 7)
           (Ref 0) (Ref 1) example_gss_creds).
  - intros n l. reflexivity.
  - intros n l. apply reverse_Permutation.
  - reflexivity.
  - reflexivity.
Defined.

(** C8: when creds["rfc"] is present but is neither "3645" nor "2845",
    buildAuthConfig falls back to the default mode without any error: it
    returns, and the configuration map it returns has the same content as
    the one returned for the same creds with the "rfc" key removed; that
    content has no "gssapi" key and no transaction-key field. *)
Theorem buildAuthConfig_unknown_rfc
    (range_order1 range_order2 : nat -> list (string * any) -> list (string * any))
    (s1 s2 : state) (creds1 creds2 : mapref) (c : gmap string string)
    (rfc : string) :
  (forall n l, range_order1 n l ≡ₚ l) ->
  (forall n l, range_order2 n l ≡ₚ l) ->
  creds_at (hp s1) creds1 c ->
  creds_at (hp s2) creds2 (delete "rfc" c) ->
  c !! "rfc" = Some rfc ->
  rfc <> "3645" ->
  rfc <> "2845" ->
  exists r1 s1' r2 s2' cfg,
    run (buildAuthConfig range_order1 creds1) s1 = Ok (r1, s1') /\
    run (buildAuthConfig range_order2 creds2) s2 = Ok (r2, s2') /\
    config_at (hp s1') r1 cfg /\
    config_at (hp s2') r2 cfg /\
    cfg !! "gssapi" = None /\
    (forall k, k ∈ ["key_name"; "key_algorithm"; "key_secret"] ->
               cfg !! k = None).
Proof.
  intros Hperm1 Hperm2 Hc1 Hc2 Hrfc Hg Hk.
  destruct s1 as [h1 n1], s2 as [h2 n2]. cbn [hp] in *.
  eexists _, _, _, _, _.
  split.
  { apply run_buildAuthConfig_default; [done..|].
    intros rfc' Hrfc'. unfold keyRFC in Hrfc'. by simplify_eq. }
  split.
  { apply run_buildAuthConfig_default; [done..|].
    intros rfc' Hrfc'. unfold keyRFC in Hrfc'.
    by rewrite lookup_delete_eq in Hrfc'. }
  cbn [hp config_at].
  split; [by apply list_lookup_middle|].
  split.
  { rewrite list_lookup_middle by done. do 2 f_equal.
    unfold optional_fields. by rewrite !copy_delete. }
  split.
  { rewrite default_fields_lookup. by decide_fields. }
  intros k Hin. rewrite default_fields_lookup.
  rewrite !elem_of_cons, elem_of_nil in Hin.
  by destruct Hin as [->|[->|[->|[]]]]; decide_fields.
Qed.

Lemma buildAuthConfig_unknown_rfc_witness :
  exists r1 s1' r2 s2' cfg,
    run (buildAuthConfig (fun _ l => l) (Ref 0))
        (State [OStrMap example_unknown_creds] 0) = Ok (r1, s1') /\
    run (buildAuthConfig (fun _ l => l) (Ref 0))
        (State [OStrMap (delete "rfc" example_unknown_creds)] 0)
    = Ok (r2, s2') /\
    config_at (hp s1') r1 cfg /\
    config_at (hp s2') r2 cfg /\
    cfg !! "gssapi" = None /\
    (forall k, k ∈ ["key_name"; "key_algorithm"; "key_secret"] ->
               cfg !! k = None).
Proof.
  apply (buildAuthConfig_unknown_rfc (fun _ l => l) (fun _ l => l)
           (State [OStrMap example_unknown_creds] 0)
           (State [OStrMap (delete "rfc" example_unknown_creds)] 0)
           (Ref 0) (Ref 0) example_unknown_creds "2136").
  - intros n l. reflexivity.
  - intros n l. reflexivity.
  - reflexivity.
  - reflexivity.
  - reflexivity.
  - discriminate.
  - discriminate.
Defined.

(** ** Claims about resourceList *)

Lemma exact_inj n1 n2 : exact n1 = exact n2 -> n1 = n2.
Proof.
  unfold exact. revert n2.
  induction n1 as [|a n1 IH]; intros [|b n2]; cbn; intros H.
  - done.
  - injection H as _ H. by destruct n2.
  - injection H as _ H. by destruct n1.
  - injection H as -> H. f_equal. by apply IH.
Qed.

Lemma resourceList_loop {E : Type} (entries : list (string * E))
    (filled : list string) :
  foldl (resourceList_step E)
        (Ok (filled ++ replicate (length entries) "", length filled)) entries
  = Ok (filled ++ (exact <$> entries.*1), length filled + length entries).
Proof.
  revert filled. induction entries as [|[n e] entries IH]; intros filled.
  - cbn. by rewrite Nat.add_0_r.
  - cbn [foldl length].
    assert (resourceList_step E
              (Ok (filled ++ replicate (S (length entries)) "", length filled))
              (n, e)
            = Ok ((filled ++ [exact n]) ++ replicate (length entries) "",
                  length (filled ++ [exact n]))) as ->.
    { unfold resourceList_step, slice_set. cbn [fst replicate].
      rewrite decide_True by (rewrite length_app; cbn; lia).
      f_equal. f_equal.
      - replace (length filled) with (length filled + 0) at 1 by lia.
        rewrite insert_app_r. cbn [list_insert].
        by rewrite <- (assoc_L (++)).
      - rewrite length_app. cbn. lia. }
    rewrite IH, <- (assoc_L (++)). cbn.
    f_equal. f_equal. rewrite length_app. cbn. lia.
Qed.

(** C10: for every external-name table, resourceList returns a list whose
    length is the number of entries of the table and whose elements are the
    keys of the table, each with "$" appended, in the order in which the
    runtime visited them: every key occurs once, none is left out. *)
Theorem resourceList_exact_keys (ExternalName : Type)
    (table_order : list (string * ExternalName) -> list (string * ExternalName))
    (t : gmap string ExternalName) :
  (forall l, table_order l ≡ₚ l) ->
  exists l,
    resourceList ExternalName table_order t = Ok l /\
    length l = size t /\
    l = (fun n => String.append n "$") <$> (table_order (map_to_list t)).*1 /\
    l ≡ₚ (fun n => String.append n "$") <$> elements (dom t) /\
    NoDup l.
Proof.
  intros Hperm. unfold resourceList.
  pose proof (resourceList_loop (table_order (map_to_list t)) []) as Hloop.
  cbn [app length] in Hloop.
  assert (length (table_order (map_to_list t)) = size t) as Hlen.
  { by rewrite Hperm, length_map_to_list. }
  rewrite Hlen in Hloop. rewrite Hloop.
  eexists. split; [done|].
  split; [by rewrite length_fmap, length_fmap|].
  split; [done|].
  assert ((table_order (map_to_list t)).*1 ≡ₚ elements (dom t)) as Hkeys.
  { rewrite Hperm. symmetry. apply NoDup_Permutation.
    - apply NoDup_elements.
    - apply NoDup_fst_map_to_list.
    - intros k. rewrite elem_of_elements, elem_of_dom.
      rewrite list_elem_of_fmap. split.
      + intros [v Hv]. exists (k, v). by rewrite elem_of_map_to_list.
      + intros [[k' v] [-> Hv%elem_of_map_to_list]]. by exists v. }
  split; [by rewrite Hkeys|].
  apply NoDup_fmap_2.
  - intros n1 n2. apply exact_inj.
  - rewrite Hperm. apply NoDup_fst_map_to_list.
Qed.

Lemma resourceList_exact_keys_witness :
  exists l,
    resourceList nat (fun l => reverse l) example_table = Ok l /\
    length l = size example_table /\
    l = (fun n => String.append n "$")
          <$> (reverse (map_to_list example_table)).*1 /\
    l ≡ₚ (fun n => String.append n "$") <$> elements (dom example_table) /\
    NoDup l.
Proof.
  apply (resourceList_exact_keys nat (fun l => reverse l) example_table).
  intros l. apply reverse_Permutation.
Defined.

(** ** Claims about the controller setup list *)

Lemma for_setups_chain {Manager Options : Type}
    (setup : controller.Package -> Manager -> Options -> Manager * option error)
    (o : Options) (pkgs : list controller.Package) (m m' : Manager) :
  controller.for_setups Manager Options (setup <$> pkgs) m o = (m', None) ->
  chain setup o pkgs m m'.
Proof.
  revert m. induction pkgs as [|p pkgs IH]; intros m; cbn.
  - by intros [= ->].
  - destruct (setup p m o) as [m1 [e|]] eqn:Hp; [done|].
    intros Hrest. exists m1. split; [done|]. by apply IH.
Qed.

Lemma chain_called {Manager Options : Type}
    (setup : controller.Package -> Manager -> Options -> Manager * option error)
    (o : Options) (pkgs : list controller.Package) (m m' : Manager) p :
  chain setup o pkgs m m' -> p ∈ pkgs ->
  exists m1 m2, setup p m1 o = (m2, None).
Proof.
  revert m. induction pkgs as [|q pkgs IH]; intros m; cbn.
  - intros _ Hin. by apply elem_of_nil in Hin.
  - intros (m1 & Hq & Hrest) [->|Hin]%elem_of_cons; eauto.
Qed.

(** C7: the list of setup functions that Setup runs holds the setup function
    of a controller for every kind of record (A, AAAA, CNAME, MX, NS, PTR,
    SRV, TXT); when Setup returns no error, the setup functions of the list
    were all called on the manager, one after the other, and each returned
    no error, so a controller is registered for each kind. *)
Theorem Setup_registers_every_kind (Manager Options : Type)
    (pkg_Setup : controller.Package -> Manager -> Options -> Manager * option error)
    (mgr mgr' : Manager) (o : Options) :
  controller.Setup Manager Options pkg_Setup mgr o = (mgr', None) ->
  (forall k, package_of k ∈ setup_list) /\
  chain pkg_Setup o setup_list mgr mgr' /\
  (forall k, exists m1 m2, pkg_Setup (package_of k) m1 o = (m2, None)).
Proof.
  intros Hrun.
  assert (forall k, package_of k ∈ setup_list) as Hall.
  { intros k. unfold setup_list. rewrite !elem_of_cons.
    destruct k; cbn; tauto. }
  split; [exact Hall|].
  apply (for_setups_chain pkg_Setup o setup_list) in Hrun.
  split; [done|]. intros k. by eapply chain_called.
Qed.

Lemma Setup_registers_every_kind_witness :
  (forall k, package_of k ∈ setup_list) /\
  chain (fun p (m : list controller.Package) (_ : unit) => (m ++ [p], None))
        tt setup_list [] setup_list /\
  (forall k, exists m1 m2 : list controller.Package,
      (m1 ++ [package_of k], @None error) = (m2, None)).
Proof.
  apply (Setup_registers_every_kind (list controller.Package) unit
           (fun p m _ => (m ++ [p], None)) [] setup_list tt).
  reflexivity.
Defined.

(** SetupGated runs the gated setup functions of the same packages in the
    same way. *)
Lemma SetupGated_registers_every_kind (Manager Options : Type)
    (pkg_SetupGated : controller.Package -> Manager -> Options -> Manager * option error)
    (mgr mgr' : Manager) (o : Options) :
  controller.SetupGated Manager Options pkg_SetupGated mgr o = (mgr', None) ->
  chain pkg_SetupGated o setup_list mgr mgr' /\
  (forall k, exists m1 m2, pkg_SetupGated (package_of k) m1 o = (m2, None)).
Proof.
  intros Hrun.
  apply (for_setups_chain pkg_SetupGated o setup_list) in Hrun.
  split; [done|]. intros k. eapply chain_called; [done|].
  unfold setup_list. rewrite !elem_of_cons. destruct k; cbn; tauto.
Qed.

(** ** Claims about the setup function *)

Section SetupFnFacts.

Context `{Frameworks}.

Lemma resolveProviderConfig_non_nil ctx client mg pcSpec :
resolveProviderConfig ctx client mg = (pcSpec, None) ->
exists spec, pcSpec = Some spec.
Proof.
unfold resolveProviderConfig, resolveLegacy, resolveModern, toSharedPCSpec,
  Wrap.
repeat case_match; intros; simplify_eq; eauto.
Qed.

(** The resolver of the second copy differs from the one of dns-v2.go in the
    text of one error only. *)
Lemma resolveProviderConfig_part_001_cases ctx client mg :
  resolveProviderConfig_part_001 ctx client mg
  = resolveProviderConfig ctx client mg \/
  (resolveProviderConfig ctx client mg
   = (None, Some (ErrNew " is not an Object")) /\
   resolveProviderConfig_part_001 ctx client mg
   = (None, Some (ErrNew "ProviderConfig is not a client.Object"))).
Proof.
  unfold resolveProviderConfig_part_001, resolveProviderConfig,
    resolveModern_part_001, resolveModern.
  destruct mg as [ref|[[name kind]|] namespace|]; auto.
  destruct (scheme_New client kind) as [[[|]|] [e|]]; auto.
Qed.

Lemma resolveProviderConfig_part_001_success ctx client mg pcSpec :
  resolveProviderConfig_part_001 ctx client mg = (pcSpec, None) <->
  resolveProviderConfig ctx client mg = (pcSpec, None).
Proof.
  destruct (resolveProviderConfig_part_001_cases ctx client mg)
    as [->|[-> ->]]; [done|]. by split.
Qed.

Lemma run_new_strmap h n :
run new_strmap (State h n) = Ok (Ref (length h), State (h ++ [OStrMap ∅]) n).
Proof. reflexivity. Qed.

Lemma run_unmarshal_creds h n data c c' err :
json_Unmarshal_creds data c = (c', err) ->
run (unmarshal_creds data (Ref (length h))) (State (h ++ [OStrMap c]) n)
= Ok ((match c' with Some _ => Ref (length h) | None => Nil end, err),
      State (h ++ [OStrMap (default c c')]) n).
Proof.
intros Hun. unfold run, unmarshal_creds. cbn [hp ranges].
rewrite list_lookup_middle by done. rewrite Hun.
destruct c' as [c'|]; [|done]. cbn [default].
rewrite insert_app_r_alt by lia.
by rewrite Nat.sub_diag.
Qed.

(** configureNoForkDNSClient returns, leaves the store as it is, and leaves
  Version, Requirement and Configuration of the setup as they are. *)
Lemma run_configureNoForkDNSClient ctx ps p s :
exists ps' err,
  run (configureNoForkDNSClient ctx ps p) s = Ok ((ps', err), s) /\
  Configuration ps' = Configuration ps /\
  Version ps' = Version ps /\ Requirement ps' = Requirement ps.
Proof.
unfold run, configureNoForkDNSClient.
destruct (Provider_Configure ctx p (hp s) (Configuration ps)) as [p' [d|]];
  [destruct (HasError d)|]; eexists _, _; by repeat split.
Qed.

Variable range_order : nat -> list (string * any) -> list (string * any).

(** C9: the setup function reports errors asymmetrically.  When
    resolveProviderConfig fails, it returns the zero terraform.Setup with
    the error; when the extraction of the credentials or their JSON
    unmarshaling fails, it returns with the error a terraform.Setup whose
    Version and Requirement are those given to the builder.  Both copies of
    the function do so, each with the error of its own
    resolveProviderConfig; the two resolvers succeed on the same inputs with
    the same spec. *)
Theorem TerraformSetupBuilder_errors
    (version providerSource providerVersion : string)
    (tfProvider : option Provider) (ctx : Ctx) (client : Client)
    (mg : Managed) (s : state) :
  let requirement :=
    {| req_Source := providerSource; req_Version := providerVersion |} in
  let setup :=
    TerraformSetupBuilder range_order version providerSource providerVersion
      tfProvider ctx client mg in
  let setup_001 :=
    TerraformSetupBuilder_part_001 range_order version providerSource
      providerVersion ctx client mg in
  (forall pcSpec e,
      resolveProviderConfig ctx client mg = (pcSpec, Some e) ->
      run setup s
      = Ok ((zero_Setup, Some (ErrWrap e "cannot resolve provider config")), s)) /\
  (forall pcSpec e,
      resolveProviderConfig_part_001 ctx client mg = (pcSpec, Some e) ->
      run setup_001 s
      = Ok ((zero_Setup, Some (ErrWrap e "cannot resolve provider config")), s)) /\
  (forall pcSpec data e,
      resolveProviderConfig ctx client mg = (Some pcSpec, None) ->
      CommonCredentialExtractor ctx (Source (Credentials pcSpec)) client
        (Selectors (Credentials pcSpec)) = (data, Some e) ->
      exists ps,
        Version ps = version /\ Requirement ps = requirement /\
        run setup s = Ok ((ps, Some (ErrWrap e errExtractCredentials)), s) /\
        run setup_001 s = Ok ((ps, Some (ErrWrap e errExtractCredentials)), s)) /\
  (forall pcSpec data c' e,
      resolveProviderConfig ctx client mg = (Some pcSpec, None) ->
      CommonCredentialExtractor ctx (Source (Credentials pcSpec)) client
        (Selectors (Credentials pcSpec)) = (data, None) ->
      json_Unmarshal_creds data ∅ = (c', Some e) ->
      exists ps s',
        Version ps = version /\ Requirement ps = requirement /\
        run setup s = Ok ((ps, Some (ErrWrap e errUnmarshalCredentials)), s') /\
        run setup_001 s = Ok ((ps, Some (ErrWrap e errUnmarshalCredentials)), s')) /\
  (forall pcSpec,
      resolveProviderConfig_part_001 ctx client mg = (Some pcSpec, None) <->
      resolveProviderConfig ctx client mg = (Some pcSpec, None)).
Proof.
  intros requirement setup setup_001. subst setup setup_001.
  unfold TerraformSetupBuilder, TerraformSetupBuilder_part_001.
  split; [|split; [|split; [|split]]].
  - intros pcSpec e ->. done.
  - intros pcSpec e ->. done.
  - intros pcSpec data e Hres.
    rewrite (proj2 (resolveProviderConfig_part_001_success _ _ _ _) Hres), Hres.
    intros ->. eexists. by repeat split.
  - intros pcSpec data c' e Hres.
    rewrite (proj2 (resolveProviderConfig_part_001_success _ _ _ _) Hres), Hres.
    intros -> Hun. destruct s as [h n].
    rewrite !run_bind, !run_new_strmap, !run_bind.
    rewrite (run_unmarshal_creds _ _ _ _ _ _ Hun).
    eexists _, _. by repeat split.
  - intros pcSpec. apply resolveProviderConfig_part_001_success.
Qed.

(** C5: when provider-config resolution, credential extraction and JSON
  unmarshaling all succeed, the Configuration of the terraform.Setup that
  the setup function returns is exactly the one-entry map that binds
  "update" to a one-element slice holding buildAuthConfig of the
  unmarshaled credential map.  Both copies of the function do so. *)
Theorem TerraformSetupBuilder_configuration
  (version providerSource providerVersion : string)
  (p : Provider) (ctx : Ctx) (client : Client) (mg : Managed) (s : state)
  (pcSpec : ProviderConfigSpec) (data : list Byte.byte)
  (c' : option (gmap string string)) :
(forall n l, range_order n l ≡ₚ l) ->
resolveProviderConfig ctx client mg = (Some pcSpec, None) ->
CommonCredentialExtractor ctx (Source (Credentials pcSpec)) client
  (Selectors (Credentials pcSpec)) = (data, None) ->
json_Unmarshal_creds data ∅ = (c', None) ->
configuration_is_update range_order (default ∅ c')
  (run (TerraformSetupBuilder range_order version providerSource
          providerVersion (Some p) ctx client mg) s) /\
configuration_is_update range_order (default ∅ c')
  (run (TerraformSetupBuilder_part_001 range_order version providerSource
          providerVersion ctx client mg) s).
Proof.
intros Hperm Hres Hext Hun. destruct s as [h n].
set (h1 := h ++ [OStrMap (default ∅ c')]).
set (creds := match c' with Some _ => Ref (length h) | None => Nil end).
assert (creds_at (h1 ++ [OAnyMap ∅]) creds (default ∅ c')) as Hc.
{ subst creds h1. destruct c' as [c'|]; [|done]. cbn [creds_at default].
  apply lookup_app_l_Some. by apply list_lookup_middle. }
destruct (run_buildAuthConfig range_order _ n _ _ Hperm Hc) as [n' Hrun].
assert (forall rest : M (Setup * option error),
           run (amap_set (Ref (length h1)) update
                  (VMaps [Ref (length (h1 ++ [OAnyMap ∅]))]) ;;; rest)
             (State ((h1 ++ [OAnyMap ∅]) ++
                     OAnyMap (optional_fields (default ∅ c') ∪
                              mode_fields (length (h1 ++ [OAnyMap ∅]))
                                (default ∅ c'))
                     :: aux_maps (default ∅ c')) n')
           = run rest
               (State ((h1 ++ [OAnyMap {[ update :=
                          VMaps [Ref (length (h1 ++ [OAnyMap ∅]))] ]}]) ++
                       OAnyMap (optional_fields (default ∅ c') ∪
                                mode_fields (length (h1 ++ [OAnyMap ∅]))
                                  (default ∅ c'))
                       :: aux_maps (default ∅ c')) n')) as Hset.
{ intros rest. rewrite run_bind, <- !(assoc_L (++)). cbn [app].
  by rewrite run_amap_set, insert_empty. }
assert (forall ps err n'',
           Configuration ps = Ref (length h1) ->
           configuration_is_update range_order (default ∅ c')
             (Ok ((ps, err),
                  State ((h1 ++ [OAnyMap {[ update :=
                            VMaps [Ref (length (h1 ++ [OAnyMap ∅]))] ]}]) ++
                         OAnyMap (optional_fields (default ∅ c') ∪
                                  mode_fields (length (h1 ++ [OAnyMap ∅]))
                                    (default ∅ c'))
                         :: aux_maps (default ∅ c')) n''))) as Hdone.
{ intros ps err n'' Hcfg.
  eexists ps, err, _, (length h1), _, creds, (State (h1 ++ [OAnyMap ∅]) n), _.
  split; [done|]. split; [done|]. cbn [hp config_at].
  split.
  { rewrite <- (assoc_L (++)). by apply list_lookup_middle. }
  split; [exact Hc|]. split; [exact Hrun|].
  intros fuel. cbn [hp].
  rewrite !snapshot_buildAuthConfig_at; [done|done|].
  by rewrite !length_app. }
split.
- unfold TerraformSetupBuilder. rewrite Hres, Hext.
  rewrite run_bind, run_new_strmap, run_bind.
  rewrite (run_unmarshal_creds _ _ _ _ _ _ Hun). fold h1 creds.
  rewrite run_bind, run_new_map, run_bind. cbn [Configuration].
  rewrite Hrun, Hset, run_bind.
  match goal with
  | |- context [run (configureNoForkDNSClient ?c ?ps ?q) ?st] =>
      destruct (run_configureNoForkDNSClient c ps q st)
        as (ps' & err & -> & Hcfg & _)
  end.
  rewrite run_ret. by apply Hdone.
- unfold TerraformSetupBuilder_part_001.
  rewrite (proj2 (resolveProviderConfig_part_001_success _ _ _ _) Hres), Hext.
  rewrite run_bind, run_new_strmap, run_bind.
  rewrite (run_unmarshal_creds _ _ _ _ _ _ Hun). fold h1 creds.
  rewrite run_bind, run_new_map, run_bind. cbn [Configuration].
  rewrite Hrun, Hset.
  destruct (xpprovider_GetProvider ctx); rewrite run_ret; by apply Hdone.
Qed.

End SetupFnFacts.

Lemma TerraformSetupBuilder_configuration_witness :
  configuration_is_update (fun _ l => l) example_gss_creds
    (run (TerraformSetupBuilder (H := example_frameworks) (fun _ l => l)
            "1.5.7" "hashicorp/dns" "3.4.0" (Some tt) tt tt
            (LegacyManaged (Some "Secret")))
         (State [] 0)) /\
  configuration_is_update (fun _ l => l) example_gss_creds
    (run (TerraformSetupBuilder_part_001 (H := example_frameworks) (fun _ l => l)
            "1.5.7" "hashicorp/dns" "3.4.0" tt tt
            (LegacyManaged (Some "Secret")))
         (State [] 0)).
Proof.
  apply (TerraformSetupBuilder_configuration (H := example_frameworks)
           (fun _ l => l) "1.5.7" "hashicorp/dns" "3.4.0" tt tt tt
           (LegacyManaged (Some "Secret")) (State [] 0)
           {| Credentials :=
                {| Source := "Secret";
                   Selectors := {| Fs := None; Env := None; SecretRef := None |} |} |}
           (String.list_byte_of_string "Secret") (Some example_gss_creds)).
  - intros n l. reflexivity.
  - reflexivity.
  - reflexivity.
  - reflexivity.
Defined.

Lemma TerraformSetupBuilder_errors_witness :
  run (TerraformSetupBuilder (H := example_frameworks) (fun _ l => l)
         "1.5.7" "hashicorp/dns" "3.4.0" (Some tt) tt tt NotManaged)
      (State [] 0)
  = Ok ((zero_Setup,
         Some (ErrWrap (ErrNew "resource is not a managed resource")
                 "cannot resolve provider config")), State [] 0) /\
  run (TerraformSetupBuilder (H := example_not_object_frameworks) (fun _ l => l)
         "1.5.7" "hashicorp/dns" "3.4.0" (Some tt) tt tt
         (ModernManaged (Some ("dns", "ProviderConfigList")) "team-a"))
      (State [] 0)
  = Ok ((zero_Setup,
         Some (ErrWrap (ErrNew " is not an Object")
                 "cannot resolve provider config")), State [] 0) /\
  run (TerraformSetupBuilder_part_001 (H := example_not_object_frameworks)
         (fun _ l => l) "1.5.7" "hashicorp/dns" "3.4.0" tt tt
         (ModernManaged (Some ("dns", "ProviderConfigList")) "team-a"))
      (State [] 0)
  = Ok ((zero_Setup,
         Some (ErrWrap (ErrNew "ProviderConfig is not a client.Object")
                 "cannot resolve provider config")), State [] 0) /\
  (exists ps,
      Version ps = "1.5.7" /\
      Requirement ps = {| req_Source := "hashicorp/dns"; req_Version := "3.4.0" |} /\
      run (TerraformSetupBuilder (H := example_frameworks) (fun _ l => l)
             "1.5.7" "hashicorp/dns" "3.4.0" (Some tt) tt tt
             (LegacyManaged (Some "None")))
          (State [] 0)
      = Ok ((ps, Some (ErrWrap (ErrNew "no credentials source")
                         errExtractCredentials)), State [] 0) /\
      run (TerraformSetupBuilder_part_001 (H := example_frameworks)
             (fun _ l => l) "1.5.7" "hashicorp/dns" "3.4.0" tt tt
             (LegacyManaged (Some "None")))
          (State [] 0)
      = Ok ((ps, Some (ErrWrap (ErrNew "no credentials source")
                         errExtractCredentials)), State [] 0)) /\
  (exists ps s',
      Version ps = "1.5.7" /\
      Requirement ps = {| req_Source := "hashicorp/dns"; req_Version := "3.4.0" |} /\
      run (TerraformSetupBuilder (H := example_frameworks) (fun _ l => l)
             "1.5.7" "hashicorp/dns" "3.4.0" (Some tt) tt tt
             (LegacyManaged (Some "Garbage")))
          (State [] 0)
      = Ok ((ps, Some (ErrWrap (ErrNew "invalid character")
                         errUnmarshalCredentials)), s') /\
      run (TerraformSetupBuilder_part_001 (H := example_frameworks)
             (fun _ l => l) "1.5.7" "hashicorp/dns" "3.4.0" tt tt
             (LegacyManaged (Some "Garbage")))
          (State [] 0)
      = Ok ((ps, Some (ErrWrap (ErrNew "invalid character")
                         errUnmarshalCredentials)), s')).
Proof.
  pose proof (fun mg =>
    TerraformSetupBuilder_errors (H := example_frameworks) (fun _ l => l)
      "1.5.7" "hashicorp/dns" "3.4.0" (Some tt) tt tt mg (State [] 0)) as E.
  pose proof
    (TerraformSetupBuilder_errors (H := example_not_object_frameworks)
       (fun _ l => l) "1.5.7" "hashicorp/dns" "3.4.0" (Some tt) tt tt
       (ModernManaged (Some ("dns", "ProviderConfigList")) "team-a")
       (State [] 0)) as (N1 & N2 & _).
  cbv zeta in E.
  split; [|split; [|split; [|split]]].
  - destruct (E NotManaged) as (E1 & _).
    exact (E1 None (ErrNew "resource is not a managed resource") eq_refl).
  - exact (N1 None (ErrNew " is not an Object") eq_refl).
  - exact (N2 None (ErrNew "ProviderConfig is not a client.Object") eq_refl).
  - destruct (E (LegacyManaged (Some "None"))) as (_ & _ & E2 & _).
    exact (E2 {| Credentials :=
                   {| Source := "None";
                      Selectors := {| Fs := None; Env := None;
                                      SecretRef := None |} |} |}
              [] (ErrNew "no credentials source") eq_refl eq_refl).
  - destruct (E (LegacyManaged (Some "Garbage"))) as (_ & _ & _ & E3 & _).
    exact (E3 {| Credentials :=
                   {| Source := "Garbage";
                      Selectors := {| Fs := None; Env := None;
                                      SecretRef := None |} |} |}
              (String.list_byte_of_string "Garbage") (Some ∅)
              (ErrNew "invalid character") eq_refl eq_refl eq_refl).
Defined.


(** * Further properties of the code *)

(** ** mergeMaps *)

Lemma heap_split (h : heap) l o :
  h !! l = Some o -> exists pre post, h = pre ++ o :: post /\ l = length pre.
Proof.
  intros Hl. exists (take l h), (drop (S l) h). split.
  - by rewrite take_drop_middle.
  - symmetry. apply length_take_le. apply lookup_lt_Some in Hl. lia.
Qed.

Lemma run_mergeMaps_at range_order (h : heap) n la lb a b :
  (forall n l, range_order n l ≡ₚ l) ->
  h !! la = Some (OAnyMap a) ->
  h !! lb = Some (OAnyMap b) ->
  run (mergeMaps range_order (Ref la) (Ref lb)) (State h n)
  = Ok (tt, State (<[la := OAnyMap (b ∪ a)]> h) (S n)).
Proof.
  intros Hperm Ha Hb.
  destruct (heap_split h la _ Ha) as (pre & post & -> & ->).
  rewrite (run_mergeMaps range_order Hperm _ _ _ _ _ b Hb).
  rewrite insert_app_r_alt by lia.
  by rewrite Nat.sub_diag.
Qed.

(** X1: mergeMaps(a, b) returns for every order in which the runtime visits b;
    afterwards a holds every binding of b and, for the keys b does not
    have, the bindings it had; b holds what it held, also when a and b are
    the same map; no other object of the store changes. *)
Theorem mergeMaps_union
    (range_order : nat -> list (string * any) -> list (string * any))
    (s : state) (la lb : loc) (a b : gmap string any) :
  (forall n l, range_order n l ≡ₚ l) ->
  config_at (hp s) (Ref la) a ->
  config_at (hp s) (Ref lb) b ->
  exists s',
    run (mergeMaps range_order (Ref la) (Ref lb)) s = Ok (tt, s') /\
    config_at (hp s') (Ref la) (b ∪ a) /\
    (forall k, (b ∪ a) !! k = match b !! k with
                              | Some v => Some v
                              | None => a !! k
                              end) /\
    config_at (hp s') (Ref lb) b /\
    (forall l, l <> la -> hp s' !! l = hp s !! l).
Proof.
  intros Hperm Ha Hb. destruct s as [h n]. cbn [hp config_at] in *.
  eexists. split; [by apply run_mergeMaps_at|]. cbn [hp].
  assert (la < length h) as Hlt by (by eapply lookup_lt_Some).
  split; [by rewrite list_lookup_insert_eq|].
  split.
  { intros k. rewrite lookup_union. by destruct (b !! k), (a !! k). }
  split.
  - destruct (decide (la = lb)) as [->|Hne].
    + rewrite list_lookup_insert_eq by done.
      assert (a = b) as -> by congruence.
      by rewrite (idemp_L (∪)).
    + by rewrite list_lookup_insert_ne.
  - intros l Hl. by rewrite list_lookup_insert_ne.
Qed.

Lemma mergeMaps_union_witness :
  exists s',
    run (mergeMaps (fun _ l => reverse l) (Ref 0) (Ref 1))
        (State [OAnyMap {[ "server" := VStr "a"; "port" := VStr "53" ]};
                OAnyMap {[ "port" := VStr "5353"; "timeout" := VStr "5" ]}] 0)
    = Ok (tt, s') /\
    config_at (hp s') (Ref 0)
      ({[ "port" := VStr "5353"; "timeout" := VStr "5" ]}
       ∪ {[ "server" := VStr "a"; "port" := VStr "53" ]}) /\
    (forall k,
        (({[ "port" := VStr "5353"; "timeout" := VStr "5" ]} : gmap string any)
         ∪ {[ "server" := VStr "a"; "port" := VStr "53" ]}) !! k
        = match ({[ "port" := VStr "5353"; "timeout" := VStr "5" ]}
                   : gmap string any) !! k with
          | Some v => Some v
          | None => ({[ "server" := VStr "a"; "port" := VStr "53" ]}
                       : gmap string any) !! k
          end) /\
    config_at (hp s') (Ref 1) {[ "port" := VStr "5353"; "timeout" := VStr "5" ]} /\
    (forall l, l <> 0 ->
               hp s' !! l
               = [OAnyMap {[ "server" := VStr "a"; "port" := VStr "53" ]};
                  OAnyMap {[ "port" := VStr "5353"; "timeout" := VStr "5" ]}] !! l).
Proof.
  apply (mergeMaps_union (fun _ l => reverse l)
           (State [OAnyMap {[ "server" := VStr "a"; "port" := VStr "53" ]};
                   OAnyMap {[ "port" := VStr "5353"; "timeout" := VStr "5" ]}] 0)
           0 1).
  - intros n l. apply reverse_Permutation.
  - reflexivity.
  - reflexivity.
Defined.

(** X2: mergeMaps with a nil map: merging a nil map into anything changes
    nothing; merging into a nil map returns when the source has no entry and
    panics, as an assignment to an entry of a nil map, when it has one. *)
Theorem mergeMaps_nil
    (range_order : nat -> list (string * any) -> list (string * any))
    (s : state) (a : mapref) (lb : loc) (b : gmap string any) :
  (forall n l, range_order n l ≡ₚ l) ->
  config_at (hp s) (Ref lb) b ->
  run (mergeMaps range_order a Nil) s
  = Ok (tt, State (hp s) (S (ranges s))) /\
  (b = ∅ ->
   run (mergeMaps range_order Nil (Ref lb)) s
   = Ok (tt, State (hp s) (S (ranges s)))) /\
  (b <> ∅ ->
   run (mergeMaps range_order Nil (Ref lb)) s
   = Panic "assignment to entry in nil map").
Proof.
  intros Hperm Hb. destruct s as [h n]. cbn [hp ranges config_at] in *.
  split; [done|].
  unfold mergeMaps. rewrite run_bind, (run_amap_range _ _ _ _ b Hb).
  pose proof (Hperm n (map_to_list b)) as Hp.
  destruct (range_order n (map_to_list b)) as [|kv kvs] eqn:Hord.
  - apply Permutation_nil_l in Hp. symmetry in Hp.
    apply map_to_list_empty_iff in Hp.
    split; [done|]. by intros Hne.
  - split; [|done].
    intros ->. rewrite map_to_list_empty in Hp.
    by apply Permutation_nil_r in Hp.
Qed.

Lemma mergeMaps_nil_witness :
  run (mergeMaps (fun _ l => l) (Ref 0) Nil)
      (State [OAnyMap {[ "port" := VStr "53" ]}] 0)
  = Ok (tt, State [OAnyMap {[ "port" := VStr "53" ]}] 1) /\
  (({[ "port" := VStr "53" ]} : gmap string any) = ∅ ->
   run (mergeMaps (fun _ l => l) Nil (Ref 0))
       (State [OAnyMap {[ "port" := VStr "53" ]}] 0)
   = Ok (tt, State [OAnyMap {[ "port" := VStr "53" ]}] 1)) /\
  (({[ "port" := VStr "53" ]} : gmap string any) <> ∅ ->
   run (mergeMaps (fun _ l => l) Nil (Ref 0))
       (State [OAnyMap {[ "port" := VStr "53" ]}] 0)
   = Panic "assignment to entry in nil map").
Proof.
  apply (mergeMaps_nil (fun _ l => l)
           (State [OAnyMap {[ "port" := VStr "53" ]}] 0) (Ref 0) 0
           {[ "port" := VStr "53" ]}).
  - intros n l. reflexivity.
  - reflexivity.
Defined.

(** ** buildAuthConfig: the whole table *)

Lemma mode_fields_lookup l c k :
  mode_fields l c !! k =
  if bool_decide (k = keyServer) then VStr <$> c !! k
  else if bool_decide (k = gssapi) then
    if bool_decide (c !! keyRFC = Some gsstsigRFC)
    then Some (VMaps [Ref (S l)]) else None
  else if bool_decide (k ∈ [transcationKeyName; transactionKeyAlgorithm;
                            transactionKeySecret]) then
    if bool_decide (c !! keyRFC = Some keyBasedTransactionRFC)
    then VStr <$> c !! k else None
  else None.
Proof.
  unfold mode_fields.
  destruct (c !! keyRFC) as [rfc|] eqn:Hrfc.
  - destruct (String.eqb_spec rfc gsstsigRFC) as [->|Hg].
    { rewrite (bool_decide_eq_true_2 (Some gsstsigRFC = Some gsstsigRFC)) by done.
      rewrite (bool_decide_eq_false_2
                 (Some gsstsigRFC = Some keyBasedTransactionRFC)) by done.
      rewrite lookup_insert, server_field_lookup.
      repeat case_bool_decide; subst; try done; case_decide; try done;
        unfold_keys; congruence. }
    rewrite (bool_decide_eq_false_2 (Some rfc = Some gsstsigRFC)) by congruence.
    destruct (String.eqb_spec rfc keyBasedTransactionRFC) as [->|Hk].
    { rewrite (bool_decide_eq_true_2
                 (Some keyBasedTransactionRFC = Some keyBasedTransactionRFC))
        by done.
      rewrite lookup_union, secret_fields_lookup, server_field_lookup.
      repeat case_bool_decide; subst; try done;
        try (match goal with |- context [c !! ?j] => by destruct (c !! j) end);
        exfalso; unfold_keys;
        repeat match goal with
          | H : context [_ ∈ _ :: _] |- _ => rewrite elem_of_cons in H
          | H : context [_ ∈ []] |- _ => rewrite elem_of_nil in H
          end; intuition congruence. }
    rewrite (bool_decide_eq_false_2 (Some rfc = Some keyBasedTransactionRFC))
      by congruence.
    rewrite server_field_lookup. by repeat case_bool_decide.
  - rewrite (bool_decide_eq_false_2 (None = Some gsstsigRFC)) by done.
    rewrite (bool_decide_eq_false_2 (None = Some keyBasedTransactionRFC)) by done.
    rewrite server_field_lookup. by repeat case_bool_decide.
Qed.

(** X3: The complete table of buildAuthConfig, in every mode: "server" and the
    four optional fields are copied when present; the three key fields are
    copied when present and creds["rfc"] is "2845", and are absent
    otherwise; "gssapi" is bound exactly when creds["rfc"] is "3645"; no
    other key is ever set, whatever creds holds. *)
Theorem buildAuthConfig_table
    (range_order : nat -> list (string * any) -> list (string * any))
    (s : state) (creds : mapref) (c : gmap string string) :
  (forall n l, range_order n l ≡ₚ l) ->
  creds_at (hp s) creds c ->
  exists r s' cfg,
    run (buildAuthConfig range_order creds) s = Ok (r, s') /\
    config_at (hp s') r cfg /\
    (forall k, k ∈ ["server"; "port"; "retries"; "timeout"; "transport"] ->
               cfg !! k = VStr <$> c !! k) /\
    (forall k, k ∈ ["key_name"; "key_algorithm"; "key_secret"] ->
               cfg !! k = if bool_decide (c !! "rfc" = Some "2845")
                          then VStr <$> c !! k else None) /\
    (is_Some (cfg !! "gssapi") <-> c !! "rfc" = Some "3645") /\
    (forall k, k ∉ ["server"; "port"; "retries"; "timeout"; "transport";
                    "key_name"; "key_algorithm"; "key_secret"; "gssapi"] ->
               cfg !! k = None).
Proof.
  intros Hperm Hc. destruct s as [h n]. cbn [hp] in Hc.
  destruct (run_buildAuthConfig range_order h n creds c Hperm Hc) as [n' Hrun].
  eexists _, _, _. split; [exact Hrun|]. cbn [hp config_at].
  split; [by apply list_lookup_middle|].
  assert (forall k,
             (optional_fields c ∪ mode_fields (length h) c) !! k
             = match optional_fields c !! k with
               | Some v => Some v
               | None => mode_fields (length h) c !! k
               end) as Hu.
  { intros k. rewrite lookup_union.
    by destruct (optional_fields c !! k), (mode_fields (length h) c !! k). }
  split; [|split; [|split]].
  - intros k Hk. rewrite Hu, optional_fields_lookup, mode_fields_lookup.
    rewrite !elem_of_cons, elem_of_nil in Hk.
    destruct Hk as [->|[->|[->|[->|[->|[]]]]]]; decide_fields;
      match goal with |- context [c !! ?j] => by destruct (c !! j) end.
  - intros k Hk. rewrite Hu, optional_fields_lookup, mode_fields_lookup.
    rewrite !elem_of_cons, elem_of_nil in Hk.
    by destruct Hk as [->|[->|[->|[]]]];
      rewrite (bool_decide_eq_false_2 (_ ∈ [keyPort; _; _; _]))
        by (unfold_keys; rewrite !elem_of_cons, elem_of_nil; intuition congruence);
      rewrite (bool_decide_eq_false_2 (_ = keyServer)) by done;
      rewrite (bool_decide_eq_false_2 (_ = gssapi)) by done;
      rewrite (bool_decide_eq_true_2 (_ ∈ [transcationKeyName; _; _]))
        by (unfold_keys; rewrite !elem_of_cons; tauto).
  - rewrite Hu, optional_fields_lookup, mode_fields_lookup.
    rewrite (bool_decide_eq_false_2 (_ ∈ [keyPort; _; _; _]))
      by (unfold_keys; rewrite !elem_of_cons, elem_of_nil; intuition congruence).
    rewrite (bool_decide_eq_false_2 (_ = keyServer)) by done.
    rewrite (bool_decide_eq_true_2 (_ = gssapi)) by done.
    case_bool_decide as Hg.
    + split; [by intros _|by eauto].
    + split; [by intros [? [=]]|done].
  - intros k Hk. rewrite Hu, optional_fields_lookup, mode_fields_lookup.
    rewrite !not_elem_of_cons in Hk.
    destruct Hk as (? & ? & ? & ? & ? & ? & ? & ? & ? & _).
    rewrite (bool_decide_eq_false_2 (_ ∈ [keyPort; _; _; _]))
      by (unfold_keys; rewrite !elem_of_cons, elem_of_nil; intuition congruence).
    rewrite (bool_decide_eq_false_2 (_ = keyServer)) by done.
    rewrite (bool_decide_eq_false_2 (_ = gssapi)) by done.
    by rewrite (bool_decide_eq_false_2 (_ ∈ [transcationKeyName; _; _]))
      by (unfold_keys; rewrite !elem_of_cons, elem_of_nil; intuition congruence).
Qed.

Lemma buildAuthConfig_table_witness :
  exists r s' cfg,
    run (buildAuthConfig (fun _ l => reverse l) (Ref 0))
        (State [OStrMap example_gss_creds] 0) = Ok (r, s') /\
    config_at (hp s') r cfg /\
    (forall k, k ∈ ["server"; "port"; "retries"; "timeout"; "transport"] ->
               cfg !! k = VStr <$> example_gss_creds !! k) /\
    (forall k, k ∈ ["key_name"; "key_algorithm"; "key_secret"] ->
               cfg !! k = if bool_decide (example_gss_creds !! "rfc" = Some "2845")
                          then VStr <$> example_gss_creds !! k else None) /\
    (is_Some (cfg !! "gssapi") <-> example_gss_creds !! "rfc" = Some "3645") /\
    (forall k, k ∉ ["server"; "port"; "retries"; "timeout"; "transport";
                    "key_name"; "key_algorithm"; "key_secret"; "gssapi"] ->
               cfg !! k = None).
Proof.
  apply (buildAuthConfig_table (fun _ l => reverse l)
           (State [OStrMap example_gss_creds] 0) (Ref 0) example_gss_creds).
  - intros n l. apply reverse_Permutation.
  - reflexivity.
Defined.

Lemma config_tree_ext fuel (c1 c2 : gmap string string) :
  (forall k, k ∈ credential_keys -> c1 !! k = c2 !! k) ->
  config_tree fuel c1 = config_tree fuel c2.
Proof.
  intros Heq.
  assert (forall k m, k ∈ credential_keys -> copy k c1 m = copy k c2 m) as Hcopy.
  { intros k m Hk. unfold copy. by rewrite (Heq k Hk). }
  assert (optional_fields c1 = optional_fields c2) as Hopt.
  { unfold optional_fields.
    by rewrite !Hcopy by (unfold credential_keys; rewrite !elem_of_cons; tauto). }
  assert (gss_fields c1 = gss_fields c2) as Hgss.
  { unfold gss_fields.
    by rewrite !Hcopy by (unfold credential_keys; rewrite !elem_of_cons; tauto). }
  assert (secret_fields c1 = secret_fields c2) as Hsec.
  { unfold secret_fields.
    by rewrite !Hcopy by (unfold credential_keys; rewrite !elem_of_cons; tauto). }
  assert (copy keyServer c1 ∅ = copy keyServer c2 ∅) as Hsrv.
  { apply Hcopy. unfold credential_keys. rewrite !elem_of_cons. tauto. }
  assert (c1 !! keyRFC = c2 !! keyRFC) as Hrfc.
  { apply Heq. unfold credential_keys. rewrite !elem_of_cons. tauto. }
  unfold config_tree. by rewrite Hopt, Hgss, Hsec, Hsrv, Hrfc.
Qed.

(** X4: buildAuthConfig reads thirteen keys of the credential map and no other:
    two credential maps that agree on those keys, whatever else they hold,
    give configuration maps that denote the same value. *)
Theorem buildAuthConfig_relevant_keys
    (range_order1 range_order2 : nat -> list (string * any) -> list (string * any))
    (s1 s2 : state) (creds1 creds2 : mapref) (c1 c2 : gmap string string) :
  (forall n l, range_order1 n l ≡ₚ l) ->
  (forall n l, range_order2 n l ≡ₚ l) ->
  creds_at (hp s1) creds1 c1 ->
  creds_at (hp s2) creds2 c2 ->
  (forall k, k ∈ ["rfc"; "server"; "port"; "retries"; "timeout"; "transport";
                  "realm"; "username"; "password"; "keytab";
                  "key_name"; "key_algorithm"; "key_secret"] ->
             c1 !! k = c2 !! k) ->
  exists r1 s1' r2 s2',
    run (buildAuthConfig range_order1 creds1) s1 = Ok (r1, s1') /\
    run (buildAuthConfig range_order2 creds2) s2 = Ok (r2, s2') /\
    (forall fuel, snapshot fuel (hp s1') r1 = snapshot fuel (hp s2') r2) /\
    complete (snapshot 3 (hp s1') r1) = true.
Proof.
  intros Hperm1 Hperm2 Hc1 Hc2 Heq.
  destruct s1 as [h1 n1], s2 as [h2 n2]. cbn [hp] in *.
  destruct (run_buildAuthConfig range_order1 h1 n1 creds1 c1 Hperm1 Hc1)
    as [n1' Hrun1].
  destruct (run_buildAuthConfig range_order2 h2 n2 creds2 c2 Hperm2 Hc2)
    as [n2' Hrun2].
  eexists _, _, _, _. split; [exact Hrun1|]. split; [exact Hrun2|]. cbn [hp].
  split.
  - intros fuel. rewrite !snapshot_buildAuthConfig. by apply config_tree_ext.
  - rewrite snapshot_buildAuthConfig. by apply complete_config_tree.
Qed.

Lemma buildAuthConfig_relevant_keys_witness :
  exists r1 s1' r2 s2',
    run (buildAuthConfig (fun _ l => l) (Ref 0))
        (State [OStrMap example_gss_creds] 0) = Ok (r1, s1') /\
    run (buildAuthConfig (fun _ l => reverse l) (Ref 0))
        (State [OStrMap (<["comment" := "unused"]> example_gss_creds)] 3)
    = Ok (r2, s2') /\
    (forall fuel, snapshot fuel (hp s1') r1 = snapshot fuel (hp s2') r2) /\
    complete (snapshot 3 (hp s1') r1) = true.
Proof.
  apply (buildAuthConfig_relevant_keys (fun _ l => l) (fun _ l => reverse l)
           (State [OStrMap example_gss_creds] 0)
           (State [OStrMap (<["comment" := "unused"]> example_gss_creds)] 3)
           (Ref 0) (Ref 0) example_gss_creds
           (<["comment" := "unused"]> example_gss_creds)).
  - intros n l. reflexivity.
  - intros n l. apply reverse_Permutation.
  - reflexivity.
  - reflexivity.
  - intros k Hk. rewrite lookup_insert_ne; [done|].
    intros <-. rewrite !elem_of_cons, elem_of_nil in Hk.
    intuition congruence.
Defined.

(** X5: The maps that buildAuthConfig returns are its own: the configuration
    map, and the map under "gssapi" when there is one, are objects that were
    not in the store before the call, distinct from each other and from the
    credential map. *)
Theorem buildAuthConfig_fresh
    (range_order : nat -> list (string * any) -> list (string * any))
    (s : state) (creds : mapref) (c : gmap string string) :
  (forall n l, range_order n l ≡ₚ l) ->
  creds_at (hp s) creds c ->
  exists l s' cfg,
    run (buildAuthConfig range_order creds) s = Ok (Ref l, s') /\
    config_at (hp s') (Ref l) cfg /\
    hp s !! l = None /\
    creds <> Ref l /\
    forall v, cfg !! "gssapi" = Some v ->
      exists la, v = VMaps [Ref la] /\ la <> l /\ hp s !! la = None /\
                 creds <> Ref la /\ is_Some (hp s' !! la).
Proof.
  intros Hperm Hc. destruct s as [h n]. cbn [hp] in Hc.
  destruct (run_buildAuthConfig range_order h n creds c Hperm Hc) as [n' Hrun].
  eexists _, _, _. split; [exact Hrun|]. cbn [hp config_at].
  split; [by apply list_lookup_middle|].
  assert (forall l', length h <= l' -> creds <> Ref l') as Hfresh.
  { intros l' Hl' ->. cbn [creds_at] in Hc.
    apply lookup_lt_Some in Hc. lia. }
  split; [by apply lookup_ge_None_2|].
  split; [by apply Hfresh|].
  intros v. rewrite lookup_union_r
    by (rewrite optional_fields_lookup; by decide_fields).
  rewrite mode_fields_lookup.
  rewrite (bool_decide_eq_false_2 (_ = keyServer)) by done.
  rewrite (bool_decide_eq_true_2 (_ = gssapi)) by done.
  case_bool_decide as Hg; [|done]. intros [= <-].
  exists (S (length h)). split; [done|]. split; [lia|].
  split; [apply lookup_ge_None_2; lia|].
  split; [apply Hfresh; lia|].
  unfold aux_maps. rewrite Hg, String.eqb_refl.
  rewrite lookup_app_r by lia.
  replace (S (length h) - length h) with 1 by lia. by eexists.
Qed.

Lemma buildAuthConfig_fresh_witness :
  exists l s' cfg,
    run (buildAuthConfig (fun _ l => l) (Ref 0))
        (State [OStrMap example_gss_creds] 0) = Ok (Ref l, s') /\
    config_at (hp s') (Ref l) cfg /\
    [OStrMap example_gss_creds] !! l = None /\
    Ref 0 <> Ref l /\
    forall v, cfg !! "gssapi" = Some v ->
      exists la, v = VMaps [Ref la] /\ la <> l /\
                 [OStrMap example_gss_creds] !! la = None /\
                 Ref 0 <> Ref la /\ is_Some (hp s' !! la).
Proof.
  apply (buildAuthConfig_fresh (fun _ l => l)
           (State [OStrMap example_gss_creds] 0) (Ref 0) example_gss_creds).
  - intros n l. reflexivity.
  - reflexivity.
Defined.

(** ** resolveProviderConfig *)

Section ResolveFacts.

Context `{Frameworks}.

Lemma in_namespace_none namespace spec :
  SecretRef (Selectors (Credentials spec)) = None ->
  in_namespace namespace spec = spec.
Proof.
  destruct spec as [[source [fs env ref]]]. cbn. intros ->. reflexivity.
Qed.

(** X6: When resolveProviderConfig returns no error, the spec it returns is not
    nil, the usage of the ProviderConfig was tracked without error, and the
    resource is a managed resource with a provider config reference: a
    legacy one whose ProviderConfig was read and re-encoded, or a modern one
    whose kind the scheme knows and whose object was read. *)
Theorem resolveProviderConfig_success (ctx : Ctx) (client : Client)
    (mg : Managed) (pcSpec : option ProviderConfigSpec) :
  resolveProviderConfig ctx client mg = (pcSpec, None) ->
  (exists spec, pcSpec = Some spec) /\
  tracker_Track ctx client mg = None /\
  match mg with
  | LegacyManaged configRef =>
      exists name, configRef = Some name /\
        (client_Get_cluster ctx client name).2 = None /\
        toSharedPCSpec (Some (client_Get_cluster ctx client name).1)
        = (pcSpec, None)
  | ModernManaged configRef namespace =>
      exists name kind, configRef = Some (name, kind) /\
        scheme_New client kind = (Some true, None) /\
        (client_Get ctx client kind name namespace).2 = None
  | NotManaged => False
  end.
Proof.
  intros Hres.
  split; [by eapply resolveProviderConfig_non_nil|].
  revert Hres.
  unfold resolveProviderConfig, resolveLegacy, resolveModern, Wrap.
  destruct mg as [[name|]|[[name kind]|] namespace|]; try done.
  - destruct (client_Get_cluster ctx client name) as [pc [e|]] eqn:Hget;
      [done|].
    destruct (tracker_Track ctx client (LegacyManaged (Some name))) eqn:Htr;
      [done|].
    intros Hshared. split; [done|]. exists name. by rewrite Hget.
  - destruct (scheme_New client kind) as [obj [e|]] eqn:Hnew; [done|].
    destruct obj as [[|]|]; try done.
    destruct (client_Get ctx client kind name namespace) as [o [e|]] eqn:Hget;
      [done|].
    destruct o as [spec|spec|]; try done;
      destruct (tracker_Track ctx client
                  (ModernManaged (Some (name, kind)) namespace)) eqn:Htr;
      try done; intros _; (split; [done|]); exists name, kind;
      by rewrite Hget.
Qed.

(** X7: resolveProviderConfig returns the error [e] exactly in the cases of
    [resolve_error]: its own errors ("resource is not a managed resource",
    no provider config reference, " is not an Object", "unknown provider
    config type"), the error of the client, the scheme or the tracker
    wrapped with the message of the call that failed, and the error of
    re-encoding the legacy spec, passed on unwrapped; in each case the calls
    before the failing one returned no error. *)
Theorem resolveProviderConfig_errors (ctx : Ctx) (client : Client)
    (mg : Managed) (e : error) :
  (exists pcSpec, resolveProviderConfig ctx client mg = (pcSpec, Some e)) <->
  resolve_error ctx client mg e.
Proof.
  split.
  - intros [pcSpec Hres]. revert Hres.
    unfold resolveProviderConfig, resolveLegacy, resolveModern, toSharedPCSpec,
      Wrap.
    destruct mg as [[name|]|[[name kind]|] namespace|].
    + destruct (client_Get_cluster ctx client name) as [pc [e1|]] eqn:Hget.
      { intros [= <- <-]. by eapply re_get_legacy. }
      destruct (tracker_Track ctx client (LegacyManaged (Some name)))
        eqn:Htr.
      { intros [= <- <-]. by eapply re_track_legacy. }
      destruct (json_Marshal_spec pc) as [data [e1|]] eqn:Hm.
      { intros [= <- <-]. by eapply re_marshal. }
      destruct (json_Unmarshal_spec data) as [spec err] eqn:Hu.
      intros [= <- ->]. by eapply re_unmarshal.
    + intros [= <- <-]. constructor.
    + destruct (scheme_New client kind) as [obj [e1|]] eqn:Hnew.
      { intros [= <- <-]. by eapply re_gvk. }
      destruct obj as [[|]|];
        try (intros [= <- <-]; by eapply re_not_object).
      destruct (client_Get ctx client kind name namespace) as [o [e1|]]
        eqn:Hget.
      { intros [= <- <-]. by eapply re_get_modern. }
      destruct o as [spec|spec|];
        try (intros [= <- <-]; by eapply re_unknown_type);
        destruct (tracker_Track ctx client
                    (ModernManaged (Some (name, kind)) namespace)) eqn:Htr;
        try done; intros [= <- <-]; by eapply re_track_modern.
    + intros [= <- <-]. constructor.
    + intros [= <- <-]. constructor.
  - unfold resolveProviderConfig, resolveLegacy, resolveModern, toSharedPCSpec,
      Wrap.
    intros [ | | ns | name pc e1 Hget | name pc e1 Hget Htr
           | name pc data e1 Hget Htr Hm | name pc data spec e1 Hget Htr Hm Hu
           | name kind ns obj e1 Hnew | name kind ns obj Hnew Hobj
           | name kind ns o e1 Hnew Hget | name kind ns Hnew Hget
           | name kind ns o e1 Hnew Hget Ho Htr ];
      try (eexists; reflexivity).
    + rewrite Hget. by eexists.
    + rewrite Hget, Htr. by eexists.
    + rewrite Hget, Htr, Hm. by eexists.
    + rewrite Hget, Htr, Hm, Hu. by eexists.
    + rewrite Hnew. by eexists.
    + rewrite Hnew. destruct obj as [[|]|]; try done; by eexists.
    + rewrite Hnew, Hget. by eexists.
    + rewrite Hnew, Hget. by eexists.
    + rewrite Hnew, Hget. destruct o; try done; rewrite Htr; by eexists.
Qed.

(** X8: resolveProviderConfig returns a spec together with an error in
    exactly one situation: on the legacy path, when the ProviderConfig was
    read, its usage tracked and its spec encoded without error, and decoding
    the encoded spec fails.  The spec is then what the decoder left and the
    error is the decoder's, unwrapped; every other failure comes with a nil
    spec. *)
Theorem resolveProviderConfig_spec_with_error (ctx : Ctx) (client : Client)
    (mg : Managed) (spec : ProviderConfigSpec) (e : error) :
  resolveProviderConfig ctx client mg = (Some spec, Some e) <->
  exists name pc data,
    mg = LegacyManaged (Some name) /\
    client_Get_cluster ctx client name = (pc, None) /\
    tracker_Track ctx client (LegacyManaged (Some name)) = None /\
    json_Marshal_spec pc = (data, None) /\
    json_Unmarshal_spec data = (spec, Some e).
Proof.
  unfold resolveProviderConfig, resolveLegacy, resolveModern, toSharedPCSpec,
    Wrap.
  split.
  - destruct mg as [[name|]|[[name kind]|] namespace|]; try done.
    + destruct (client_Get_cluster ctx client name) as [pc [e1|]] eqn:Hget;
        [done|].
      destruct (tracker_Track ctx client (LegacyManaged (Some name))) eqn:Htr;
        [done|].
      destruct (json_Marshal_spec pc) as [data [e1|]] eqn:Hm; [done|].
      destruct (json_Unmarshal_spec data) as [spec' err] eqn:Hu.
      intros [= -> ->]. by exists name, pc, data.
    + destruct (scheme_New client kind) as [obj [e1|]]; [done|].
      destruct obj as [[|]|]; try done.
      destruct (client_Get ctx client kind name namespace) as [o [e1|]];
        [done|].
      by destruct o as [s0|s0|];
        try destruct (tracker_Track ctx client
                        (ModernManaged (Some (name, kind)) namespace)).
  - intros (name & pc & data & -> & Hget & Htr & Hm & Hu).
    by rewrite Hget, Htr, Hm, Hu.
Qed.

(** X9: On the modern path a namespaced ProviderConfig reads its secret in the
    namespace of the managed resource, whatever namespace its secret
    reference names: the spec returned is the spec read with that namespace
    put in the secret reference and nothing else changed.  The spec of a
    ClusterProviderConfig is returned as read. *)
Theorem resolveModern_namespace (ctx : Ctx) (client : Client)
    (name kind namespace : string) (spec' : ProviderConfigSpec) :
  resolveProviderConfig ctx client (ModernManaged (Some (name, kind)) namespace)
  = (Some spec', None) ->
  match (client_Get ctx client kind name namespace).1 with
  | NamespacedProviderConfig spec =>
      spec' = in_namespace namespace spec /\
      forall ref, SecretRef (Selectors (Credentials spec')) = Some ref ->
                  sks_Namespace ref = namespace
  | ClusterProviderConfig spec => spec' = spec
  | OtherObject => False
  end.
Proof.
  unfold resolveProviderConfig, resolveModern, Wrap.
  destruct (scheme_New client kind) as [obj [e1|]]; [done|].
  destruct obj as [[|]|]; try done.
  destruct (client_Get ctx client kind name namespace) as [o [e1|]]; [done|].
  cbn [fst].
  destruct o as [spec|spec|]; try done;
    destruct (tracker_Track ctx client
                (ModernManaged (Some (name, kind)) namespace)); try done.
  - intros [= <-].
    destruct spec as [[source [fs env [ref|]]]]; cbn; split; try done.
    by intros ref' [= <-].
  - by intros [= <-].
Qed.

End ResolveFacts.

Lemma resolveProviderConfig_success_witness :
  (exists spec,
      Some {| Credentials :=
                {| Source := "Secret";
                   Selectors := {| Fs := None; Env := None;
                                   SecretRef := None |} |} |} = Some spec) /\
  tracker_Track (Frameworks := example_frameworks) tt tt
    (LegacyManaged (Some "Secret")) = None /\
  exists name, Some "Secret" = Some name /\
    (client_Get_cluster (Frameworks := example_frameworks) tt tt name).2 = None /\
    toSharedPCSpec (H := example_frameworks)
      (Some (client_Get_cluster (Frameworks := example_frameworks) tt tt name).1)
    = (Some {| Credentials :=
                 {| Source := "Secret";
                    Selectors := {| Fs := None; Env := None;
                                    SecretRef := None |} |} |}, None).
Proof.
  apply (resolveProviderConfig_success (H := example_frameworks) tt tt
           (LegacyManaged (Some "Secret"))).
  reflexivity.
Defined.

Lemma resolveProviderConfig_errors_witness :
  resolve_error (H := example_namespaced_frameworks) tt tt
    (LegacyManaged (Some "Secret")) (ErrNew "json: cannot unmarshal") /\
  resolve_error (H := example_not_object_frameworks) tt tt
    (ModernManaged (Some ("dns", "ProviderConfigList")) "team-a")
    (ErrNew " is not an Object") /\
  exists pcSpec,
    resolveProviderConfig (H := example_frameworks) tt tt (LegacyManaged None)
    = (pcSpec, Some (ErrNew errNoProviderConfig)).
Proof.
  split; [|split].
  - apply (proj1 (resolveProviderConfig_errors
                    (H := example_namespaced_frameworks) tt tt
                    (LegacyManaged (Some "Secret"))
                    (ErrNew "json: cannot unmarshal"))).
    by eexists.
  - apply (proj1 (resolveProviderConfig_errors
                    (H := example_not_object_frameworks) tt tt
                    (ModernManaged (Some ("dns", "ProviderConfigList")) "team-a")
                    (ErrNew " is not an Object"))).
    by eexists.
  - apply (proj2 (resolveProviderConfig_errors (H := example_frameworks) tt tt
                    (LegacyManaged None) (ErrNew errNoProviderConfig))).
    constructor.
Defined.

Lemma resolveProviderConfig_spec_with_error_witness :
  exists name pc data,
    LegacyManaged (Some "Secret") = LegacyManaged (Some name) /\
    client_Get_cluster (Frameworks := example_namespaced_frameworks) tt tt name
    = (pc, None) /\
    tracker_Track (Frameworks := example_namespaced_frameworks) tt tt
      (LegacyManaged (Some name)) = None /\
    json_Marshal_spec (Frameworks := example_namespaced_frameworks) pc
    = (data, None) /\
    json_Unmarshal_spec (Frameworks := example_namespaced_frameworks) data
    = ({| Credentials :=
            {| Source := "Secret";
               Selectors := {| Fs := None; Env := None;
                               SecretRef := None |} |} |},
       Some (ErrNew "json: cannot unmarshal")).
Proof.
  apply (proj1 (resolveProviderConfig_spec_with_error
                  (H := example_namespaced_frameworks) tt tt
                  (LegacyManaged (Some "Secret"))
                  {| Credentials :=
                       {| Source := "Secret";
                          Selectors := {| Fs := None; Env := None;
                                          SecretRef := None |} |} |}
                  (ErrNew "json: cannot unmarshal"))).
  reflexivity.
Defined.

Lemma resolveModern_namespace_witness :
  {| Credentials :=
       {| Source := "Secret";
          Selectors :=
            {| Fs := None; Env := None;
               SecretRef := Some {| sks_Name := "dns";
                                    sks_Namespace := "team-a";
                                    sks_Key := "credentials" |} |} |} |}
  = in_namespace "team-a"
      {| Credentials :=
           {| Source := "Secret";
              Selectors :=
                {| Fs := None; Env := None;
                   SecretRef := Some {| sks_Name := "dns";
                                        sks_Namespace := "kube-system";
                                        sks_Key := "credentials" |} |} |} |} /\
  forall ref,
    Some {| sks_Name := "dns"; sks_Namespace := "team-a";
            sks_Key := "credentials" |} = Some ref ->
    sks_Namespace ref = "team-a".
Proof.
  apply (resolveModern_namespace (H := example_namespaced_frameworks) tt tt
           "dns" "ProviderConfig" "team-a").
  reflexivity.
Defined.

(** ** The setup function: outcomes *)

Section SetupFnOutcomes.

Context `{Frameworks}.

Variable range_order : nat -> list (string * any) -> list (string * any).
Hypothesis range_order_perm : forall n l, range_order n l ≡ₚ l.

Lemma run_amap_set_then {A} h t m n k v (rest : M A) :
  run (amap_set (Ref (length h)) k v ;;; rest) (State (h ++ OAnyMap m :: t) n)
  = run rest (State (h ++ OAnyMap (<[k := v]> m) :: t) n).
Proof. by rewrite run_bind, run_amap_set. Qed.

Lemma run_configureNoForkDNSClient_eq ctx ps p s p' diag :
  Provider_Configure ctx p (hp s) (Configuration ps) = (p', diag) ->
  run (configureNoForkDNSClient ctx ps p) s
  = Ok (match configure_error diag with
        | Some e => (ps, Some e)
        | None => ({| Version := Version ps;
                      Requirement := Requirement ps;
                      Configuration := Configuration ps;
                      Meta := Provider_Meta p';
                      FrameworkProvider := xpprovider_GetProvider ctx |}, None)
        end, s).
Proof.
  intros Hcfg. unfold run, configureNoForkDNSClient, configure_error.
  rewrite Hcfg. destruct diag as [d|]; [|done]. by destruct (HasError d).
Qed.

(** The store and the setup at the point where both copies of the setup
    function have set the configuration: after the credential map, the
    configuration map and the maps of buildAuthConfig were allocated. *)
Lemma run_setup_configured version providerSource providerVersion
    ctx client mg h n pcSpec data c' :
  resolveProviderConfig ctx client mg = (Some pcSpec, None) ->
  CommonCredentialExtractor ctx (Source (Credentials pcSpec)) client
    (Selectors (Credentials pcSpec)) = (data, None) ->
  json_Unmarshal_creds data ∅ = (c', None) ->
  let c := default ∅ c' in
  let h1 := h ++ [OStrMap c] in
  let final :=
    h1 ++ OAnyMap {[ update := VMaps [Ref (S (length h1))] ]}
       :: OAnyMap (optional_fields c ∪ mode_fields (S (length h1)) c)
       :: aux_maps c in
  let ps0 :=
    {| Version := version;
       Requirement := {| req_Source := providerSource;
                         req_Version := providerVersion |};
       Configuration := Ref (length h1);
       Meta := None;
       FrameworkProvider := None |} in
  exists n',
    (forall tfProvider,
        run (TerraformSetupBuilder range_order version providerSource
               providerVersion tfProvider ctx client mg) (State h n)
        = match tfProvider with
          | None => Panic "invalid memory address or nil pointer dereference"
          | Some p =>
              run (r <- configureNoForkDNSClient ctx ps0 p ;;
                   let '(ps, err) := r in
                   ret (ps, Wrap err
                              "failed to configure the Terraform DNS provider meta"))
                  (State final n')
          end) /\
    run (TerraformSetupBuilder_part_001 range_order version providerSource
           providerVersion ctx client mg) (State h n)
    = Ok (match xpprovider_GetProvider ctx with
          | None => (ps0, Some (ErrNew "framework provider is nil"))
          | Some fwProvider =>
              ({| Version := version;
                  Requirement := {| req_Source := providerSource;
                                    req_Version := providerVersion |};
                  Configuration := Ref (length h1);
                  Meta := None;
                  FrameworkProvider := Some fwProvider |}, None)
          end, State final n').
Proof.
  intros Hres Hext Hun c h1 final ps0.
  set (creds := match c' with Some _ => Ref (length h) | None => Nil end).
  assert (creds_at (h1 ++ [OAnyMap ∅]) creds c) as Hc.
  { subst creds h1 c. destruct c' as [c'|]; [|done]. cbn [creds_at default].
    apply lookup_app_l_Some. by apply list_lookup_middle. }
  destruct (run_buildAuthConfig range_order _ n _ _ range_order_perm Hc)
    as [n' Hrun].
  assert (length (h1 ++ [OAnyMap ∅]) = S (length h1)) as Hlen
    by (rewrite length_app; cbn; lia).
  rewrite Hlen, <- (assoc_L (++)) in Hrun. cbn [app] in Hrun.
  exists n'. split.
  - intros tfProvider. unfold TerraformSetupBuilder. rewrite Hres, Hext.
    rewrite run_bind, run_new_strmap, run_bind.
    rewrite (run_unmarshal_creds _ _ _ _ _ _ Hun). fold c h1 creds.
    rewrite run_bind, run_new_map, run_bind. cbn [Configuration].
    rewrite Hrun, run_amap_set_then, insert_empty.
    by destruct tfProvider.
  - unfold TerraformSetupBuilder_part_001.
    rewrite (proj2 (resolveProviderConfig_part_001_success _ _ _ _) Hres), Hext.
    rewrite run_bind, run_new_strmap, run_bind.
    rewrite (run_unmarshal_creds _ _ _ _ _ _ Hun). fold c h1 creds.
    rewrite run_bind, run_new_map, run_bind. cbn [Configuration].
    rewrite Hrun, run_amap_set_then, insert_empty.
    by destruct (xpprovider_GetProvider ctx).
Qed.

(** X10: Given a provider, the setup function never panics, whatever the
    frameworks answer: it returns a setup and possibly an error, and every
    object that was in the store before the call is unchanged after it.  So
    does the second copy of the function. *)
Theorem TerraformSetupBuilder_returns
    (version providerSource providerVersion : string) (p : Provider)
    (ctx : Ctx) (client : Client) (mg : Managed) (s : state) :
  (exists ps err s',
      run (TerraformSetupBuilder range_order version providerSource
             providerVersion (Some p) ctx client mg) s = Ok ((ps, err), s') /\
      forall l o, hp s !! l = Some o -> hp s' !! l = Some o) /\
  (exists ps err s',
      run (TerraformSetupBuilder_part_001 range_order version providerSource
             providerVersion ctx client mg) s = Ok ((ps, err), s') /\
      forall l o, hp s !! l = Some o -> hp s' !! l = Some o).
Proof.
  destruct s as [h n].
  destruct (resolveProviderConfig ctx client mg) as [pc [e|]] eqn:Hres.
  { unfold TerraformSetupBuilder, TerraformSetupBuilder_part_001.
    rewrite Hres.
    destruct (resolveProviderConfig_part_001 ctx client mg) as [pc1 [e1|]]
      eqn:Hres1.
    - split; eexists _, _, _; by split.
    - apply resolveProviderConfig_part_001_success in Hres1. congruence. }
  destruct (resolveProviderConfig_non_nil _ _ _ _ Hres) as [pcSpec ->].
  pose proof (proj2 (resolveProviderConfig_part_001_success _ _ _ _) Hres)
    as Hres1.
  destruct (CommonCredentialExtractor ctx (Source (Credentials pcSpec)) client
              (Selectors (Credentials pcSpec))) as [data [e|]] eqn:Hext.
  { unfold TerraformSetupBuilder, TerraformSetupBuilder_part_001.
    rewrite Hres, Hres1, Hext. split; eexists _, _, _; by split. }
  destruct (json_Unmarshal_creds data ∅) as [c' [e|]] eqn:Hun.
  { unfold TerraformSetupBuilder, TerraformSetupBuilder_part_001.
    rewrite Hres, Hres1, Hext.
    rewrite !run_bind, !run_new_strmap, !run_bind.
    rewrite (run_unmarshal_creds _ _ _ _ _ _ Hun).
    split; eexists _, _, _; (split; [done|]);
      intros l o; apply lookup_app_l_Some. }
  destruct (run_setup_configured version providerSource providerVersion
              ctx client mg h n pcSpec data c' Hres Hext Hun)
    as (n' & Hrun & Hrun1).
  split.
  - rewrite (Hrun (Some p)), run_bind.
    match goal with
    | |- context [run (configureNoForkDNSClient ?c ?ps ?q) ?st] =>
        destruct (run_configureNoForkDNSClient c ps q st)
          as (ps' & err & -> & _)
    end.
    eexists _, _, _. split; [by rewrite run_ret|]. cbn [hp].
    intros l o Hl. by do 2 apply lookup_app_l_Some.
  - rewrite Hrun1.
    destruct (xpprovider_GetProvider ctx); eexists _, _, _;
      (split; [done|]); cbn [hp]; intros l o Hl;
      by do 2 apply lookup_app_l_Some.
Qed.

(** X11: Without a provider (a nil [tfProvider]) the setup function of dns-v2.go
    panics on the nil pointer, and does so only after the credentials were
    resolved, extracted and unmarshaled. *)
Theorem TerraformSetupBuilder_nil_provider
    (version providerSource providerVersion : string)
    (ctx : Ctx) (client : Client) (mg : Managed) (s : state)
    (pcSpec : ProviderConfigSpec) (data : list Byte.byte)
    (c' : option (gmap string string)) :
  resolveProviderConfig ctx client mg = (Some pcSpec, None) ->
  CommonCredentialExtractor ctx (Source (Credentials pcSpec)) client
    (Selectors (Credentials pcSpec)) = (data, None) ->
  json_Unmarshal_creds data ∅ = (c', None) ->
  run (TerraformSetupBuilder range_order version providerSource
         providerVersion None ctx client mg) s
  = Panic "invalid memory address or nil pointer dereference".
Proof.
  intros Hres Hext Hun. destruct s as [h n].
  destruct (run_setup_configured version providerSource providerVersion
              ctx client mg h n pcSpec data c' Hres Hext Hun)
    as (n' & Hrun & _).
  apply (Hrun None).
Qed.

(** X12: Once the credentials are unmarshaled, the setup function of dns-v2.go
    configures the provider with the configuration as it is returned, the
    "update" entry set; the error it returns is nil when the diagnostics
    are nil or hold no error, and otherwise the diagnostics' error wrapped
    with "failed to configure the Terraform DNS provider meta", in which
    case Meta and FrameworkProvider of the setup returned are nil. *)
Theorem TerraformSetupBuilder_configure_outcome
    (version providerSource providerVersion : string) (p : Provider)
    (ctx : Ctx) (client : Client) (mg : Managed) (s : state)
    (pcSpec : ProviderConfigSpec) (data : list Byte.byte)
    (c' : option (gmap string string)) :
  resolveProviderConfig ctx client mg = (Some pcSpec, None) ->
  CommonCredentialExtractor ctx (Source (Credentials pcSpec)) client
    (Selectors (Credentials pcSpec)) = (data, None) ->
  json_Unmarshal_creds data ∅ = (c', None) ->
  exists ps s' p' diag auth,
    run (TerraformSetupBuilder range_order version providerSource
           providerVersion (Some p) ctx client mg) s
    = Ok ((ps, Wrap (configure_error diag)
                 "failed to configure the Terraform DNS provider meta"), s') /\
    Provider_Configure ctx p (hp s') (Configuration ps) = (p', diag) /\
    config_at (hp s') (Configuration ps) {[ "update" := VMaps [auth] ]} /\
    (is_Some (configure_error diag) ->
     Meta ps = None /\ FrameworkProvider ps = None).
Proof.
  intros Hres Hext Hun. destruct s as [h n].
  destruct (run_setup_configured version providerSource providerVersion
              ctx client mg h n pcSpec data c' Hres Hext Hun)
    as (n' & Hrun & _).
  rewrite (Hrun (Some p)), run_bind.
  match goal with
  | |- context [run (configureNoForkDNSClient ?c ?ps ?q) (State ?hf ?nf)] =>
      destruct (Provider_Configure c q hf (Configuration ps))
        as [p' diag] eqn:Hcfg;
      rewrite (run_configureNoForkDNSClient_eq c ps q (State hf nf) p' diag Hcfg)
  end.
  destruct (configure_error diag) as [e|] eqn:Herr.
  - eexists _, _, p', diag, _. rewrite Herr, run_ret.
    split; [done|]. cbn [hp Configuration config_at].
    split; [exact Hcfg|].
    split; [by apply list_lookup_middle|]. done.
  - eexists _, _, p', diag, _. rewrite Herr, run_ret.
    split; [done|]. cbn [hp Configuration config_at].
    split; [exact Hcfg|].
    split; [by apply list_lookup_middle|]. by intros [? [=]].
Qed.

(** X13: The two copies of the setup function differ when the DNS provider has
    no framework provider: the second copy returns the error "framework
    provider is nil"; dns-v2.go returns a setup whose FrameworkProvider is
    nil and no error of its own, its error being that of configuring the
    provider alone. *)
Theorem TerraformSetupBuilder_nil_framework_provider
    (version providerSource providerVersion : string) (p : Provider)
    (ctx : Ctx) (client : Client) (mg : Managed) (s : state)
    (pcSpec : ProviderConfigSpec) (data : list Byte.byte)
    (c' : option (gmap string string)) :
  resolveProviderConfig ctx client mg = (Some pcSpec, None) ->
  CommonCredentialExtractor ctx (Source (Credentials pcSpec)) client
    (Selectors (Credentials pcSpec)) = (data, None) ->
  json_Unmarshal_creds data ∅ = (c', None) ->
  xpprovider_GetProvider ctx = None ->
  (exists ps s',
      run (TerraformSetupBuilder_part_001 range_order version providerSource
             providerVersion ctx client mg) s
      = Ok ((ps, Some (ErrNew "framework provider is nil")), s') /\
      FrameworkProvider ps = None) /\
  (exists ps s' p' diag,
      run (TerraformSetupBuilder range_order version providerSource
             providerVersion (Some p) ctx client mg) s
      = Ok ((ps, Wrap (configure_error diag)
                   "failed to configure the Terraform DNS provider meta"), s') /\
      Provider_Configure ctx p (hp s') (Configuration ps) = (p', diag) /\
      FrameworkProvider ps = None).
Proof.
  intros Hres Hext Hun Hfw. destruct s as [h n].
  destruct (run_setup_configured version providerSource providerVersion
              ctx client mg h n pcSpec data c' Hres Hext Hun)
    as (n' & Hrun & Hrun1).
  split.
  - rewrite Hrun1, Hfw. by eexists _, _.
  - rewrite (Hrun (Some p)), run_bind.
    match goal with
    | |- context [run (configureNoForkDNSClient ?c ?ps ?q) (State ?hf ?nf)] =>
        destruct (Provider_Configure c q hf (Configuration ps))
          as [p' diag] eqn:Hcfg;
        rewrite (run_configureNoForkDNSClient_eq c ps q (State hf nf) p' diag Hcfg)
    end.
    destruct (configure_error diag) as [e|] eqn:Herr;
      eexists _, _, p', diag; rewrite Herr, run_ret;
      (split; [done|]); cbn [hp Configuration FrameworkProvider];
      by split.
Qed.

End SetupFnOutcomes.

Lemma TerraformSetupBuilder_returns_witness :
  (exists ps err s',
      run (TerraformSetupBuilder (H := example_frameworks) (fun _ l => l)
             "1.5.7" "hashicorp/dns" "3.4.0" (Some tt) tt tt
             (LegacyManaged (Some "Garbage"))) (State [OAnyMap ∅] 0)
      = Ok ((ps, err), s') /\
      forall l o, [OAnyMap ∅] !! l = Some o -> hp s' !! l = Some o) /\
  (exists ps err s',
      run (TerraformSetupBuilder_part_001 (H := example_frameworks)
             (fun _ l => l) "1.5.7" "hashicorp/dns" "3.4.0" tt tt
             (LegacyManaged (Some "Garbage"))) (State [OAnyMap ∅] 0)
      = Ok ((ps, err), s') /\
      forall l o, [OAnyMap ∅] !! l = Some o -> hp s' !! l = Some o).
Proof.
  apply (TerraformSetupBuilder_returns (H := example_frameworks)
           (fun _ l => l)).
  intros n l. reflexivity.
Defined.

Lemma TerraformSetupBuilder_nil_provider_witness :
  run (TerraformSetupBuilder (H := example_frameworks) (fun _ l => l)
         "1.5.7" "hashicorp/dns" "3.4.0" None tt tt
         (LegacyManaged (Some "Secret"))) (State [] 0)
  = Panic "invalid memory address or nil pointer dereference".
Proof.
  apply (TerraformSetupBuilder_nil_provider (H := example_frameworks)
           (fun _ l => l) (fun n l => reflexivity l)
           "1.5.7" "hashicorp/dns" "3.4.0" tt tt
           (LegacyManaged (Some "Secret")) (State [] 0)
           {| Credentials :=
                {| Source := "Secret";
                   Selectors := {| Fs := None; Env := None; SecretRef := None |} |} |}
           (String.list_byte_of_string "Secret") (Some example_gss_creds)).
  - reflexivity.
  - reflexivity.
  - reflexivity.
Defined.

Lemma TerraformSetupBuilder_configure_outcome_witness :
  exists ps s' p' diag auth,
    run (TerraformSetupBuilder (H := example_namespaced_frameworks)
           (fun _ l => l) "1.5.7" "hashicorp/dns" "3.4.0" (Some tt) tt tt
           (ModernManaged (Some ("dns", "ProviderConfig")) "team-a"))
        (State [] 0)
    = Ok ((ps, Wrap (configure_error (H := example_namespaced_frameworks) diag)
                 "failed to configure the Terraform DNS provider meta"), s') /\
    Provider_Configure (Frameworks := example_namespaced_frameworks)
      tt tt (hp s') (Configuration ps) = (p', diag) /\
    config_at (hp s') (Configuration ps) {[ "update" := VMaps [auth] ]} /\
    (is_Some (configure_error (H := example_namespaced_frameworks) diag) ->
     Meta ps = None /\ FrameworkProvider ps = None).
Proof.
  apply (TerraformSetupBuilder_configure_outcome
           (H := example_namespaced_frameworks)
           (fun _ l => l) (fun n l => reflexivity l)
           "1.5.7" "hashicorp/dns" "3.4.0" tt tt tt
           (ModernManaged (Some ("dns", "ProviderConfig")) "team-a")
           (State [] 0)
           {| Credentials :=
                {| Source := "Secret";
                   Selectors :=
                     {| Fs := None; Env := None;
                        SecretRef := Some {| sks_Name := "dns";
                                             sks_Namespace := "team-a";
                                             sks_Key := "credentials" |} |} |} |}
           (String.list_byte_of_string "Secret") None).
  - reflexivity.
  - reflexivity.
  - reflexivity.
Defined.

Lemma TerraformSetupBuilder_nil_framework_provider_witness :
  (exists ps s',
      run (TerraformSetupBuilder_part_001 (H := example_namespaced_frameworks)
             (fun _ l => l) "1.5.7" "hashicorp/dns" "3.4.0" tt tt
             (ModernManaged (Some ("dns", "ProviderConfig")) "team-a"))
          (State [] 0)
      = Ok ((ps, Some (ErrNew "framework provider is nil")), s') /\
      FrameworkProvider ps = None) /\
  (exists ps s' p' diag,
      run (TerraformSetupBuilder (H := example_namespaced_frameworks)
             (fun _ l => l) "1.5.7" "hashicorp/dns" "3.4.0" (Some tt) tt tt
             (ModernManaged (Some ("dns", "ProviderConfig")) "team-a"))
          (State [] 0)
      = Ok ((ps, Wrap (configure_error (H := example_namespaced_frameworks) diag)
                   "failed to configure the Terraform DNS provider meta"), s') /\
      Provider_Configure (Frameworks := example_namespaced_frameworks)
        tt tt (hp s') (Configuration ps) = (p', diag) /\
      FrameworkProvider ps = None).
Proof.
  apply (TerraformSetupBuilder_nil_framework_provider
           (H := example_namespaced_frameworks)
           (fun _ l => l) (fun n l => reflexivity l)
           "1.5.7" "hashicorp/dns" "3.4.0" tt tt tt
           (ModernManaged (Some ("dns", "ProviderConfig")) "team-a")
           (State [] 0)
           {| Credentials :=
                {| Source := "Secret";
                   Selectors :=
                     {| Fs := None; Env := None;
                        SecretRef := Some {| sks_Name := "dns";
                                             sks_Namespace := "team-a";
                                             sks_Key := "credentials" |} |} |} |}
           (String.list_byte_of_string "Secret") None).
  - reflexivity.
  - reflexivity.
  - reflexivity.
  - reflexivity.
Defined.

(** ** Setup and SetupGated: the first error *)

Lemma for_setups_failure {Manager Options : Type}
    (setup : controller.Package -> Manager -> Options -> Manager * option error)
    (o : Options) (pkgs : list controller.Package) (m m' : Manager) (e : error) :
  controller.for_setups Manager Options (setup <$> pkgs) m o = (m', Some e) ->
  exists pre p post m1,
    pkgs = pre ++ p :: post /\
    chain setup o pre m m1 /\
    setup p m1 o = (m', Some e).
Proof.
  revert m. induction pkgs as [|q pkgs IH]; intros m; cbn; [done|].
  destruct (setup q m o) as [m1 [e1|]] eqn:Hq.
  - intros [= <- <-]. by exists [], q, pkgs, m.
  - intros (pre & p & post & m2 & -> & Hpre & Hp)%IH.
    exists (q :: pre), p, post, m2. split; [done|]. split; [|done].
    cbn. by exists m1.
Qed.

(** X15: When Setup returns an error, it is the error of the first setup
    function of the list that failed: the setup functions before it were
    called in order and returned no error, the manager is as the failing
    call left it, and no setup function after it was called. *)
Theorem Setup_first_error (Manager Options : Type)
    (pkg_Setup : controller.Package -> Manager -> Options -> Manager * option error)
    (mgr mgr' : Manager) (o : Options) (e : error) :
  controller.Setup Manager Options pkg_Setup mgr o = (mgr', Some e) ->
  exists pre p post m1,
    setup_list = pre ++ p :: post /\
    chain pkg_Setup o pre mgr m1 /\
    pkg_Setup p m1 o = (mgr', Some e).
Proof. apply (for_setups_failure pkg_Setup o setup_list). Qed.

Lemma Setup_first_error_witness :
  exists pre p post (m1 : list controller.Package),
    setup_list = pre ++ p :: post /\
    chain (fun p (m : list controller.Package) (_ : unit) =>
             match p with
             | controller.ptrrecord => (m, Some (ErrNew "cannot create controller"))
             | _ => (m ++ [p], None)
             end)
          tt pre [] m1 /\
    match p with
    | controller.ptrrecord => (m1, Some (ErrNew "cannot create controller"))
    | _ => (m1 ++ [p], None)
    end
    = ([controller.providerconfig; controller.cnamerecord],
       Some (ErrNew "cannot create controller")).
Proof.
  apply (Setup_first_error (list controller.Package) unit
           (fun p m _ =>
              match p with
              | controller.ptrrecord => (m, Some (ErrNew "cannot create controller"))
              | _ => (m ++ [p], None)
              end)
           [] [controller.providerconfig; controller.cnamerecord] tt
           (ErrNew "cannot create controller")).
  reflexivity.
Defined.

(** X16: SetupGated runs the gated setup functions of the same packages, in the
    same order and with the same handling of errors as Setup: it returns no
    error when all of them were called and returned none, and otherwise the
    error of the first that failed, with no later one called. *)
Theorem SetupGated_outcome (Manager Options : Type)
    (pkg_SetupGated : controller.Package -> Manager -> Options -> Manager * option error)
    (mgr : Manager) (o : Options) :
  match controller.SetupGated Manager Options pkg_SetupGated mgr o with
  | (mgr', None) => chain pkg_SetupGated o setup_list mgr mgr'
  | (mgr', Some e) =>
      exists pre p post m1,
        setup_list = pre ++ p :: post /\
        chain pkg_SetupGated o pre mgr m1 /\
        pkg_SetupGated p m1 o = (mgr', Some e)
  end.
Proof.
  destruct (controller.SetupGated Manager Options pkg_SetupGated mgr o)
    as [mgr' [e|]] eqn:Hrun.
  - by apply (for_setups_failure pkg_SetupGated o setup_list).
  - by apply (for_setups_chain pkg_SetupGated o setup_list).
Qed.

(** ** resourceList: the keys alone *)

Lemma resourceList_elements {E : Type}
    (table_order : list (string * E) -> list (string * E))
    (t : gmap string E) :
  (forall l, table_order l ≡ₚ l) ->
  exists l,
    resourceList E table_order t = Ok l /\
    forall n, n ∈ l <-> exists k, k ∈ dom t /\ n = exact k.
Proof.
  intros Hperm. unfold resourceList.
  pose proof (resourceList_loop (table_order (map_to_list t)) []) as Hloop.
  cbn [app length] in Hloop.
  assert (length (table_order (map_to_list t)) = size t) as Hlen
    by (by rewrite Hperm, length_map_to_list).
  rewrite Hlen in Hloop. rewrite Hloop.
  eexists. split; [done|]. intros n.
  rewrite list_elem_of_fmap. setoid_rewrite Hperm.
  split.
  - intros (k & -> & Hk). exists k. split; [|done].
    apply list_elem_of_fmap in Hk as ([k' v] & -> & Hkv%elem_of_map_to_list).
    apply elem_of_dom. by exists v.
  - intros (k & [v Hv]%elem_of_dom & ->). exists k. split; [done|].
    apply list_elem_of_fmap. exists (k, v). by rewrite elem_of_map_to_list.
Qed.

Lemma resourceList_NoDup {E : Type}
    (table_order : list (string * E) -> list (string * E))
    (t : gmap string E) l :
  (forall l, table_order l ≡ₚ l) ->
  resourceList E table_order t = Ok l -> NoDup l.
Proof.
  intros Hp. unfold resourceList.
  pose proof (resourceList_loop (table_order (map_to_list t)) []) as Hloop.
  cbn [app length] in Hloop.
  replace (length (table_order (map_to_list t))) with (size t) in Hloop
    by (by rewrite Hp, length_map_to_list).
  rewrite Hloop. intros [= <-].
  apply NoDup_fmap_2; [intros ??; apply exact_inj|].
  rewrite Hp. apply NoDup_fst_map_to_list.
Qed.

(** X17: The include list depends on the keys of the table alone: for two
    tables, whatever external-name configurations they hold and in whatever
    order the runtime visits them, the lists returned are permutations of
    each other exactly when the tables have the same keys. *)
Theorem resourceList_same_keys (E1 E2 : Type)
    (order1 : list (string * E1) -> list (string * E1))
    (order2 : list (string * E2) -> list (string * E2))
    (t1 : gmap string E1) (t2 : gmap string E2) :
  (forall l, order1 l ≡ₚ l) ->
  (forall l, order2 l ≡ₚ l) ->
  exists l1 l2,
    resourceList E1 order1 t1 = Ok l1 /\
    resourceList E2 order2 t2 = Ok l2 /\
    (l1 ≡ₚ l2 <-> dom t1 = dom t2).
Proof.
  intros Hperm1 Hperm2.
  destruct (resourceList_elements order1 t1 Hperm1) as (l1 & Hrun1 & Hin1).
  destruct (resourceList_elements order2 t2 Hperm2) as (l2 & Hrun2 & Hin2).
  exists l1, l2. split; [done|]. split; [done|].
  split.
  - intros Hl. apply set_eq. intros k. split; intros Hk.
    + assert (exact k ∈ l2) as (k' & Hk' & ->%exact_inj)%Hin2; [|done].
      rewrite <- Hl. apply Hin1. by exists k.
    + assert (exact k ∈ l1) as (k' & Hk' & ->%exact_inj)%Hin1; [|done].
      rewrite Hl. apply Hin2. by exists k.
  - intros Hdom. apply NoDup_Permutation.
    + by apply (resourceList_NoDup order1 t1).
    + by apply (resourceList_NoDup order2 t2).
    +
      intros n. rewrite Hin1, Hin2. by rewrite Hdom.
Qed.

Lemma resourceList_same_keys_witness :
  exists l1 l2,
    resourceList nat (fun l => l) example_table = Ok l1 /\
    resourceList bool (fun l => reverse l) (Nat.even <$> example_table) = Ok l2 /\
    (l1 ≡ₚ l2 <-> dom example_table = dom (Nat.even <$> example_table)).
Proof.
  apply (resourceList_same_keys nat bool (fun l => l) (fun l => reverse l)
           example_table (Nat.even <$> example_table)).
  - intros l. reflexivity.
  - intros l. apply reverse_Permutation.
Defined.

(** ** The setup function: empty credentials *)

Section SetupFnEmpty.

Context `{Frameworks}.

Variable range_order : nat -> list (string * any) -> list (string * any).
Hypothesis range_order_perm : forall n l, range_order n l ≡ₚ l.

Lemma empty_fields l :
  optional_fields ∅ ∪ mode_fields l ∅ = ∅ /\
  aux_maps ∅ = [OAnyMap ∅].
Proof.
  unfold optional_fields, mode_fields, aux_maps, copy.
  rewrite !lookup_empty. split; [|done]. by rewrite (left_id_L ∅ (∪)).
Qed.

(** X14: Credentials that unmarshal to no field at all (the JSON texts [null]
    and [{}]) are not refused: both copies of the setup function go on and
    return the configuration that binds "update" to a slice holding one
    empty map, with no server in it. *)
Theorem TerraformSetupBuilder_empty_credentials
    (version providerSource providerVersion : string) (p : Provider)
    (ctx : Ctx) (client : Client) (mg : Managed) (s : state)
    (pcSpec : ProviderConfigSpec) (data : list Byte.byte)
    (c' : option (gmap string string)) :
  resolveProviderConfig ctx client mg = (Some pcSpec, None) ->
  CommonCredentialExtractor ctx (Source (Credentials pcSpec)) client
    (Selectors (Credentials pcSpec)) = (data, None) ->
  json_Unmarshal_creds data ∅ = (c', None) ->
  c' = None \/ c' = Some ∅ ->
  (exists ps err s',
      run (TerraformSetupBuilder range_order version providerSource
             providerVersion (Some p) ctx client mg) s = Ok ((ps, err), s') /\
      snapshot 3 (hp s') (Configuration ps)
      = TMap {[ "update" := TSlice [TMap ∅] ]}) /\
  (exists ps err s',
      run (TerraformSetupBuilder_part_001 range_order version providerSource
             providerVersion ctx client mg) s = Ok ((ps, err), s') /\
      snapshot 3 (hp s') (Configuration ps)
      = TMap {[ "update" := TSlice [TMap ∅] ]}).
Proof.
  intros Hres Hext Hun Hempty. destruct s as [h n].
  destruct (run_setup_configured range_order range_order_perm
              version providerSource providerVersion
              ctx client mg h n pcSpec data c' Hres Hext Hun)
    as (n' & Hrun & Hrun1).
  assert (default ∅ c' = ∅) as Hc by (by destruct Hempty as [->| ->]).
  rewrite Hc in Hrun, Hrun1.
  destruct (empty_fields (S (length (h ++ [OStrMap ∅])))) as [Hf Ha].
  rewrite Hf, Ha in Hrun, Hrun1.
  assert (snapshot 3
            ((h ++ [OStrMap ∅]) ++
             [OAnyMap {[ update := VMaps [Ref (S (length (h ++ [OStrMap ∅])))] ]};
              OAnyMap ∅; OAnyMap ∅])
            (Ref (length (h ++ [OStrMap ∅])))
          = TMap {[ "update" := TSlice [TMap ∅] ]}) as Hsnap.
  { cbn [snapshot]. rewrite list_lookup_middle by done.
    rewrite map_fmap_singleton. cbn [tree_of_any fmap list_fmap snapshot].
    rewrite lookup_app_r by lia.
    replace (S (length (h ++ [OStrMap ∅])) - length (h ++ [OStrMap ∅]))
      with 1 by lia.
    cbn. by rewrite fmap_empty. }
  split.
  - rewrite (Hrun (Some p)), run_bind.
    match goal with
    | |- context [run (configureNoForkDNSClient ?c ?ps ?q) ?st] =>
        destruct (run_configureNoForkDNSClient c ps q st)
          as (ps' & err & -> & Hcfg & _)
    end.
    eexists _, _, _. split; [by rewrite run_ret|]. cbn [hp].
    by rewrite Hcfg.
  - rewrite Hrun1.
    by destruct (xpprovider_GetProvider ctx); eexists _, _, _.
Qed.

End SetupFnEmpty.

Lemma TerraformSetupBuilder_empty_credentials_witness :
  (exists ps err s',
      run (TerraformSetupBuilder (H := example_namespaced_frameworks)
             (fun _ l => l) "1.5.7" "hashicorp/dns" "3.4.0" (Some tt) tt tt
             (ModernManaged (Some ("dns", "ProviderConfig")) "team-a"))
          (State [] 0) = Ok ((ps, err), s') /\
      snapshot 3 (hp s') (Configuration ps)
      = TMap {[ "update" := TSlice [TMap ∅] ]}) /\
  (exists ps err s',
      run (TerraformSetupBuilder_part_001 (H := example_namespaced_frameworks)
             (fun _ l => l) "1.5.7" "hashicorp/dns" "3.4.0" tt tt
             (ModernManaged (Some ("dns", "ProviderConfig")) "team-a"))
          (State [] 0) = Ok ((ps, err), s') /\
      snapshot 3 (hp s') (Configuration ps)
      = TMap {[ "update" := TSlice [TMap ∅] ]}).
Proof.
  apply (TerraformSetupBuilder_empty_credentials
           (H := example_namespaced_frameworks)
           (fun _ l => l) (fun n l => reflexivity l)
           "1.5.7" "hashicorp/dns" "3.4.0" tt tt tt
           (ModernManaged (Some ("dns", "ProviderConfig")) "team-a")
           (State [] 0)
           {| Credentials :=
                {| Source := "Secret";
                   Selectors :=
                     {| Fs := None; Env := None;
                        SecretRef := Some {| sks_Name := "dns";
                                             sks_Namespace := "team-a";
                                             sks_Key := "credentials" |} |} |} |}
           (String.list_byte_of_string "Secret") None).
  - reflexivity.
  - reflexivity.
  - reflexivity.
  - by left.
Defined.
